(** * chunksumm: chunked embedding, label expansion, dataset and collation

    A shallow embedding of [dsci_2022/chunksumm.py].

    Conventions of the model.
    - A 2-D tensor is its list of rows together with the size of dimension 1
      (the size of dimension 0 is the number of rows).  Keeping the column
      count apart lets a tensor with an empty batch keep its token length.
    - A Python call that raises is a function into [option]; [None] is the
      raised exception.
    - The encoder ([self.bert]) and the tokenizer are external: they are the
      fields of the classes [Encoder] and [Tokenizer].  The encoder is a
      function of the values of its inputs.  An embedding vector (768 floats)
      is an opaque value of type [emb]; the element-wise mean over stacked
      layers is the field [layer_mean].
    - Finite float values are the rationals they denote.  [torch.zeros]
      allocates float32, so an integer written into such a buffer is rounded
      to a 24-bit significand ([to_float32]). *)

From Stdlib Require Import List ZArith QArith Lia Bool Arith Permutation Sorted.
From Stdlib Require String.
Import ListNotations.

Set Implicit Arguments.

Open Scope nat_scope.

(** ** Exceptions *)

Definition bind {A B : Type} (m : option A) (k : A -> option B) : option B :=
  match m with
  | Some a => k a
  | None => None
  end.

Notation "x <- m ;; k" := (bind m (fun x => k))
  (at level 61, m at next level, right associativity).

(** [[f(x) for x in l]] where [f] may raise. *)
Fixpoint map_opt {A B : Type} (f : A -> option B) (l : list A) : option (list B) :=
  match l with
  | [] => Some []
  | a :: r => b <- f a ;; bs <- map_opt f r ;; Some (b :: bs)
  end.

(** ** Two-dimensional tensors *)

Record tensor2 (A : Type) : Type := Tensor2 {
  rows : list (list A);
  cols : nat
}.

Arguments Tensor2 {A} rows cols.

Definition batch_size {A} (t : tensor2 A) : nat := length (rows t).

(** Every row has the length announced by the shape. *)
Definition wfb {A} (t : tensor2 A) : bool :=
  forallb (fun r => length r =? cols t) (rows t).

Definition wf {A} (t : tensor2 A) : Prop := wfb t = true.

Definition same_shape {A B} (t : tensor2 A) (u : tensor2 B) : bool :=
  (batch_size t =? batch_size u) && (cols t =? cols u).

(** [t.narrow(1, start, len)] *)
Definition narrow {A} (t : tensor2 A) (start len : nat) : tensor2 A :=
  Tensor2 (map (fun r => firstn len (skipn start r)) (rows t)) len.

(** The tensor without rows and without columns. *)
Definition empty_tensor {A} : tensor2 A := Tensor2 [] 0.

Definition empty_window : tensor2 Z * tensor2 Z * tensor2 Z :=
  (empty_tensor, empty_tensor, empty_tensor).

(** [t[:, :n]] *)
Definition slice_to {A} (n : nat) (t : tensor2 A) : tensor2 A :=
  Tensor2 (map (firstn n) (rows t)) (Nat.min n (cols t)).

(** [torch.split(t, split_size, dim=1)] for a positive [split_size]: the
    number of pieces is [ceil(size / split_size)], at least one; every piece
    but the last has [split_size] columns. *)
Definition num_splits (dim_size split_size : nat) : nat :=
  Nat.max ((dim_size + split_size - 1) / split_size) 1.

Definition split {A} (split_size : nat) (t : tensor2 A) : list (tensor2 A) :=
  let n := num_splits (cols t) split_size in
  let last_split_size := split_size - (split_size * n - cols t) in
  map (fun i =>
         narrow t (i * split_size)
                (if i <? n - 1 then split_size else last_split_size))
      (seq 0 n).

(** [torch.cat(ts, dim=1)]: raises on an empty list and when the batch sizes
    differ; row [b] of the result is the rows [b] of the pieces, in order. *)
Definition cat1 {A} (ts : list (tensor2 A)) : option (tensor2 A) :=
  match ts with
  | [] => None
  | t0 :: _ =>
      if forallb (fun t => batch_size t =? batch_size t0) ts
      then Some (Tensor2
                   (map (fun b => flat_map (fun t => nth b (rows t) []) ts)
                        (seq 0 (batch_size t0)))
                   (list_sum (map (@cols A) ts)))
      else None
  end.

(** ** CHUNKSUMM: the embedding *)

Class Encoder : Type := {
  emb : Type;
  layer_mean : list emb -> emb;
  (* self.bert(ids, mask, types, output_hidden_states=True)[2] *)
  bert : tensor2 Z -> tensor2 Z -> tensor2 Z -> option (list (tensor2 emb))
}.

Definition window_size : nat := 512.

Section Embedding.
Context {enc : Encoder}.

(** The [chunk] property: [partial(torch.split, split_size_or_sections=512, dim=1)]. *)
Definition chunk {A} (t : tensor2 A) : list (tensor2 A) := split window_size t.

(** The values of the given layers at position [(b, s)]. *)
Definition at_position (layers : list (tensor2 emb)) (b s : nat) : list emb :=
  flat_map (fun l => match nth_error (rows l) b with
                     | Some r => match nth_error r s with
                                 | Some e => [e]
                                 | None => []
                                 end
                     | None => []
                     end) layers.

(** [torch.stack(hidden_states)[-5:].mean(0)]: [torch.stack] raises on an
    empty tuple and on layers of different shapes. *)
Definition mean_last5 (hidden_states : list (tensor2 emb)) : option (tensor2 emb) :=
  match hidden_states with
  | [] => None
  | h0 :: _ =>
      if forallb (same_shape h0) hidden_states
      then
        let last5 := skipn (length hidden_states - 5) hidden_states in
        Some (Tensor2
                (map (fun b => map (fun s => layer_mean (at_position last5 b s))
                                   (seq 0 (cols h0)))
                     (seq 0 (batch_size h0)))
                (cols h0))
      else None
  end.

(** One pass of the loop body: encode a window, pool its last five layers. *)
Definition embed_window (c : tensor2 Z * tensor2 Z * tensor2 Z) : option (tensor2 emb) :=
  let '(c0, c1, c2) := c in
  chunk_hidden_states <- bert c0 c1 c2 ;;
  mean_last5 chunk_hidden_states.

(** [zip(batch_chunks[0], batch_chunks[1], batch_chunks[2])] *)
Definition windows (input_ids attention_mask token_type_ids : tensor2 Z)
  : list (tensor2 Z * tensor2 Z * tensor2 Z) :=
  combine (combine (chunk input_ids) (chunk attention_mask)) (chunk token_type_ids).

Definition get_embedding (enable_chunk : bool)
           (input_ids attention_mask token_type_ids : tensor2 Z)
  : option (tensor2 emb) :=
  if enable_chunk then
    handler <- map_opt embed_window (windows input_ids attention_mask token_type_ids) ;;
    cat1 handler
  else
    hidden_states <- bert (slice_to 512 input_ids)
                          (slice_to 512 attention_mask)
                          (slice_to 512 token_type_ids) ;;
    mean_last5 hidden_states.

End Embedding.

(** *** Statements about the encoder and the windows *)

(** The positions [start:stop] of the windows of a sequence of [L] tokens:
    consecutive slices of 512 positions, the last one up to [L]. *)
Definition chunk_bounds (L : nat) : list (nat * nat) :=
  map (fun i => (i * 512, Nat.min ((i + 1) * 512) L)) (seq 0 ((L + 511) / 512)).

Section EncoderContract.
Context {enc : Encoder}.

(** The layers are not empty and each has the batch size and the sequence
    length of [x]. *)
Definition layers_like {A} (x : tensor2 A) (hs : list (tensor2 emb)) : bool :=
  match hs with
  | [] => false
  | _ => forallb (same_shape x) hs
  end.

(** On this window the encoder returns layer representations with the
    batch size and the sequence length of the window. *)
Definition encoder_keeps_shape (c : tensor2 Z * tensor2 Z * tensor2 Z) : bool :=
  match bert (fst (fst c)) (snd (fst c)) (snd c) with
  | Some hs => layers_like (fst (fst c)) hs
  | None => false
  end.

(** [e] is what the loop body of the chunked branch appends for the
    window [win], and it has the batch size and the length of [win]. *)
Definition embedded_as (win : tensor2 Z * tensor2 Z * tensor2 Z) (e : tensor2 emb) : Prop :=
  embed_window win = Some e /\ wf e /\
  batch_size e = batch_size (fst (fst win)) /\ cols e = cols (fst (fst win)).

End EncoderContract.

(** ** CHUNKSUMM: label expansion *)

(** [tensor.bool()] on a float: every value other than zero is [True]. *)
Definition to_bool (v : Q) : bool := negb (Qeq_bool v 0).

(** [torch.tensor([1.,0.]) if val else torch.tensor([0.,1.])] *)
Definition expand_label (val : bool) : list Q :=
  if val then [1%Q; 0%Q] else [0%Q; 1%Q].

(** [expand_targets]: the comprehension runs over the rows of
    [targets.bool()] and over the values of each row; [torch.stack] raises
    when the comprehension is empty. *)
Definition expand_targets (targets : tensor2 Q) : option (tensor2 Q) :=
  match flat_map (fun batch => map (fun v => expand_label (to_bool v)) batch)
                 (rows targets) with
  | [] => None
  | out => Some (Tensor2 out 2)
  end.

(** [torch.argmax] of a vector: the index of the first largest value. *)
Fixpoint argmax_from (best : Q) (best_i i : nat) (l : list Q) : nat :=
  match l with
  | [] => best_i
  | x :: r => if Qlt_le_dec best x
              then argmax_from x i (S i) r
              else argmax_from best best_i (S i) r
  end.

Definition argmax (l : list Q) : nat :=
  match l with
  | [] => 0
  | x :: r => argmax_from x 0 1 r
  end.

(** A boolean label as the float [1.] or [0.]. *)
Definition of_label (b : bool) : Q := if b then 1%Q else 0%Q.

(** ** CHUNKSUMM: forward pass and steps *)

(** A tensor of any rank: its shape and its values in row-major order. *)
Record ndtensor : Type := NdTensor {
  shape : list nat;
  values : list Q
}.

Definition numel (t : ndtensor) : nat := fold_right Nat.mul 1 (shape t).

Definition nd_of_tensor2 (t : tensor2 Q) : ndtensor :=
  NdTensor [batch_size t; cols t] (concat (rows t)).

(** [t.reshape_as(other)]: raises unless both hold the same number of
    elements; the values keep their row-major order. *)
Definition reshape_as (t other : ndtensor) : option ndtensor :=
  if numel t =? numel other
  then Some (NdTensor (shape other) (values t))
  else None.

(** The classification head and the loss.  [l1] is the linear layer on one
    embedding vector, [softmax] acts on one vector of class scores, and
    [criterion] is only ever applied to two tensors of one shape.  The AUROC
    metric and the [self.log] calls of the steps only report values; they
    are left out. *)
Class Head (enc : Encoder) : Type := {
  n_classes : nat;
  l1 : emb -> list Q;
  softmax : list Q -> list Q;
  criterion : ndtensor -> ndtensor -> Q
}.

Module Batch.
Record t : Type := Make {
  input_ids : tensor2 Z;
  attention_mask : tensor2 Z;
  token_type_ids : tensor2 Z;
  targets : tensor2 Q
}.
End Batch.

Record step_output : Type := StepOutput {
  loss : Q;
  predictions : ndtensor;
  labels : ndtensor
}.

Section Steps.
Context {enc : Encoder} {head : Head enc}.
Variable enable_chunk : bool.

Definition forward (input_ids attention_mask token_type_ids : tensor2 Z)
           (train : bool) : option ndtensor :=
  embed2d <- get_embedding enable_chunk input_ids attention_mask token_type_ids ;;
  let logits := map (map l1) (rows embed2d) in
  let out := if train then logits else map (map softmax) logits in
  Some (NdTensor [batch_size embed2d; cols embed2d; n_classes]
                 (concat (map (@concat Q) out))).

Definition training_step (batch : Batch.t) : option step_output :=
  outputs <- forward (Batch.input_ids batch) (Batch.attention_mask batch)
                     (Batch.token_type_ids batch) true ;;
  labels0 <- expand_targets (Batch.targets batch) ;;
  labels <- reshape_as (nd_of_tensor2 labels0) outputs ;;
  Some (StepOutput (criterion outputs labels) outputs labels).

Definition validation_step (batch : Batch.t) : option Q :=
  outputs <- forward (Batch.input_ids batch) (Batch.attention_mask batch)
                     (Batch.token_type_ids batch) false ;;
  labels0 <- expand_targets (Batch.targets batch) ;;
  labels <- reshape_as (nd_of_tensor2 labels0) outputs ;;
  Some (criterion outputs labels).

Definition test_step (batch : Batch.t) : option Q :=
  outputs <- forward (Batch.input_ids batch) (Batch.attention_mask batch)
                     (Batch.token_type_ids batch) false ;;
  labels0 <- expand_targets (Batch.targets batch) ;;
  labels <- reshape_as (nd_of_tensor2 labels0) outputs ;;
  Some (criterion outputs labels).

Definition predict_step (batch : Batch.t) : option ndtensor :=
  forward (Batch.input_ids batch) (Batch.attention_mask batch)
          (Batch.token_type_ids batch) false.

End Steps.

(** ** The table of records *)

(** One row of the DataFrame: its index label and its three columns.  The
    types of the [text] and [in_summary] cells are parameters: a well-formed
    table has [String.string] and [bool] cells, a table with missing values
    has [option] cells. *)
Record Row (T L : Type) : Type := MkRow {
  label : Z;
  paper_id : Z;
  text : T;
  in_summary : L
}.

(** [groupby(key)] with the default [sort=True]: the distinct keys in
    increasing order, each with its rows in their order in the frame. *)
Fixpoint insert_key (k : Z) (ks : list Z) : list Z :=
  match ks with
  | [] => [k]
  | k' :: r => if (k <? k')%Z then k :: ks
               else if (k =? k')%Z then ks
               else k' :: insert_key k r
  end.

Definition group_keys {R} (key : R -> Z) (df : list R) : list Z :=
  fold_right insert_key [] (map key df).

Definition groupby {R} (key : R -> Z) (df : list R) : list (Z * list R) :=
  map (fun k => (k, filter (fun r => (key r =? k)%Z) df)) (group_keys key df).

(** [df.index.is_unique]: no two rows carry the same label.  It holds of
    the default index of a frame and of any sample of its rows. *)
Definition index_is_unique {T L} (table : list (Row T L)) : Prop :=
  NoDup (map (@label T L) table).

(** The rows of paper [k], in their order in the table. *)
Definition paper_rows {T L} (table : list (Row T L)) (k : Z) : list (Row T L) :=
  filter (fun r => (paper_id r =? k)%Z) table.

(** [df.loc[labels, :]]: for each requested label, every row carrying it;
    a label carried by no row raises [KeyError]. *)
Definition loc {T L} (df : list (Row T L)) (labels : list Z) : option (list (Row T L)) :=
  picked <- map_opt (fun l => match filter (fun r => (label r =? l)%Z) df with
                              | [] => None
                              | m => Some m
                              end) labels ;;
  Some (concat picked).

(** ** The tokenizer and tokenized examples *)

Module Encoding.
Record t : Type := Make {
  input_ids : list Z;
  token_type_ids : list Z;
  attention_mask : list Z
}.
End Encoding.

(** [tokenizer(text, add_special_tokens=...)] *)
Class Tokenizer : Type := {
  tokenize : String.string -> bool -> Encoding.t
}.

(** A one-dimensional tensor with its element type. *)
Variant tensor1 : Type :=
  | IntTensor (v : list Z)
  | BoolTensor (v : list bool)
  | FloatTensor (v : list Q).

Definition len (t : tensor1) : nat :=
  match t with
  | IntTensor v => length v
  | BoolTensor v => length v
  | FloatTensor v => length v
  end.

Module Example.
Record t : Type := Make {
  input_ids : list Z;
  attention_mask : list Z;
  token_type_ids : list Z;
  targets : tensor1
}.
End Example.

(** ** SuMM_with_tokenizer *)

(** The object returned by the tokenizer is mutable: [combine_inputs] adds a
    ["targets"] entry to it in place.  [dict_targets] is [None] while the key
    is absent.  The [tokens] column of the frame holds references into a
    store of such objects. *)
Record tokens_dict : Type := TokensDict {
  dict_encoding : Encoding.t;
  dict_targets : option (list bool)
}.

Definition store : Type := list tokens_dict.

Fixpoint store_set (st : store) (ref : nat) (d : tokens_dict) : store :=
  match st, ref with
  | [], _ => []
  | _ :: r, O => d :: r
  | x :: r, S n => x :: store_set r n d
  end.

Record SuMM_with_tokenizer (T L : Type) : Type := MkDataset {
  data : list (Row T L);
  process_paper_level : bool;
  papers_dict : list (list Z)
}.

Section Dataset.
Context {tok : Tokenizer}.

(** [__init__]: stores its arguments and numbers the groups of row labels
    of [data.groupby('paper_id')]. *)
Definition __init__ {T L} (data : list (Row T L)) (process_paper_level : bool)
  : option (SuMM_with_tokenizer T L) :=
  Some (MkDataset data process_paper_level
                  (map (fun g => map (@label T L) (snd g))
                       (groupby (@paper_id T L) data))).

(** [data.paper_id.value_counts()]: one entry per distinct value. *)
Definition value_counts (l : list Z) : list (Z * nat) :=
  map (fun k => (k, count_occ Z.eq_dec l k)) (nodup Z.eq_dec l).

Definition __len__ {T L} (self : SuMM_with_tokenizer T L) : nat :=
  if process_paper_level self
  then length (value_counts (map (@paper_id T L) (data self)))
  else length (data self).

(** The object the tokenizer returns for a row: no ["targets"] key yet. *)
Definition fresh_tokens (r : Row String.string bool) : tokens_dict :=
  TokensDict (tokenize (text r) false) None.

(** First [assign]: one fresh tokenizer result per row; the new column
    holds the reference of each. *)
Definition assign_tokens (df : list (Row String.string bool))
  : store * list (Row String.string bool * nat) :=
  (map fresh_tokens df, combine df (seq 0 (length df))).

(** Second [assign]: [row["tokens"].update({"targets": ...})] on every row,
    in order.  The column it produces is all [None] and is never read. *)
Definition propagate_labels (st : store) (frame : list (Row String.string bool * nat))
  : option store :=
  fold_left
    (fun acc row =>
       st <- acc ;;
       d <- nth_error st (snd row) ;;
       Some (store_set st (snd row)
               (TokensDict (dict_encoding d)
                  (Some (repeat (in_summary (fst row))
                                (length (Encoding.input_ids (dict_encoding d))))))))
    frame (Some st).

(** The aggregation of one group: the four [sum(..., start=[])].  Reading
    ["targets"] from an object that has no such key raises. *)
Definition agg (st : store) (l : list nat) : option Example.t :=
  ds <- map_opt (nth_error st) l ;;
  tg <- map_opt dict_targets ds ;;
  Some (Example.Make
          (concat (map (fun d => Encoding.input_ids (dict_encoding d)) ds))
          (concat (map (fun d => Encoding.attention_mask (dict_encoding d)) ds))
          (concat (map (fun d => Encoding.token_type_ids (dict_encoding d)) ds))
          (BoolTensor (concat tg))).

(** [combine_inputs]: every group is aggregated, the first is returned;
    [to_list()[0]] raises on a frame without rows. *)
Definition combine_inputs (df : list (Row String.string bool)) : option Example.t :=
  let '(st0, frame) := assign_tokens df in
  st <- propagate_labels st0 frame ;;
  out <- map_opt (fun g => agg st (map snd (snd g)))
                 (groupby (fun row => paper_id (fst row)) frame) ;;
  nth_error out 0.

(** [__getitem__], for an index that is not negative. *)
Definition __getitem__ (self : SuMM_with_tokenizer String.string bool) (index : nat)
  : option Example.t :=
  if process_paper_level self then
    labels <- nth_error (papers_dict self) index ;;
    paper <- loc (data self) labels ;;
    combine_inputs paper
  else
    datum <- nth_error (data self) index ;;
    let inputs := tokenize (text datum) true in
    let input_len := length (Encoding.input_ids inputs) in
    let target := if in_summary datum then repeat 1%Q input_len
                  else repeat 0%Q input_len in
    Some (Example.Make (Encoding.input_ids inputs)
                       (Encoding.attention_mask inputs)
                       (Encoding.token_type_ids inputs)
                       (FloatTensor target)).

End Dataset.

(** *** What a paper should give

    The example of a paper, in the words of the specification: every
    sentence is tokenized without special tokens, its label is repeated over
    its tokens, and the sentences follow each other in the order given. *)

Section PaperExample.
Context {tok : Tokenizer}.

Definition sentence_tokens (r : Row String.string bool) : Encoding.t :=
  tokenize (text r) false.

Definition sentence_targets (r : Row String.string bool) : list bool :=
  repeat (in_summary r) (length (Encoding.input_ids (sentence_tokens r))).

(** The tokenizer result of a row once its targets are recorded. *)
Definition labelled_tokens (r : Row String.string bool) : tokens_dict :=
  TokensDict (sentence_tokens r) (Some (sentence_targets r)).

Definition paper_example (sentences : list (Row String.string bool)) : Example.t :=
  Example.Make
    (concat (map (fun r => Encoding.input_ids (sentence_tokens r)) sentences))
    (concat (map (fun r => Encoding.attention_mask (sentence_tokens r)) sentences))
    (concat (map (fun r => Encoding.token_type_ids (sentence_tokens r)) sentences))
    (BoolTensor (concat (map sentence_targets sentences))).

End PaperExample.

(** ** SummDataModule.collate *)

(** The float32 nearest to an integer (ties to even), as the integer it
    denotes.  Integers of magnitude up to [2^24] are exact. *)
Definition to_float32 (z : Z) : Z :=
  let a := Z.abs z in
  if (a <=? 2 ^ 24)%Z then z
  else
    let e := (Z.log2 a - 23)%Z in
    let q := Z.shiftr a e in
    let r := (a - Z.shiftl q e)%Z in
    let half := Z.shiftl 1 (e - 1) in
    let q' := if (half <? r)%Z || ((r =? half)%Z && Z.odd q) then (q + 1)%Z else q in
    (Z.sgn z * Z.shiftl q' e)%Z.

(** The values a tensor takes when it is written into a float32 buffer. *)
Definition as_float32 (t : tensor1) : list Q :=
  match t with
  | IntTensor v => map (fun z => inject_Z (to_float32 z)) v
  | BoolTensor v => map (fun b : bool => if b then 1%Q else 0%Q) v
  | FloatTensor v => v
  end.

(** [tensor.int()] on a float: truncation toward zero. *)
Definition to_int32 (q : Q) : Z := Z.quot (Qnum q) (Zpos (Qden q)).

(** The local function [pad]:
    [out = torch.zeros(max); out[: len(tensor)] = tensor].
    The slice has [min(len(tensor), max)] elements.  The assignment raises
    when the source is longer than the slice, except that a source of one
    element is broadcast (here over an empty slice). *)
Definition pad (maximum : nat) (tensor : tensor1) : option (list Q) :=
  let out := repeat 0%Q maximum in
  let n := Nat.min (len tensor) maximum in
  if len tensor =? n then Some (as_float32 tensor ++ skipn n out)
  else if len tensor =? 1 then Some out
  else None.

Definition collate (batch : list Example.t) : option Batch.t :=
  match batch with
  | [] => None
  | _ =>
      let maximum :=
        list_max (map (fun item => length (Example.input_ids item)) batch) in
      padded <- map_opt
                  (fun datum =>
                     i <- pad maximum (IntTensor (Example.input_ids datum)) ;;
                     m <- pad maximum (IntTensor (Example.attention_mask datum)) ;;
                     t <- pad maximum (Example.targets datum) ;;
                     Some (i, m, t))
                  batch ;;
      Some (Batch.Make
              (Tensor2 (map (fun p => map to_int32 (fst (fst p))) padded) maximum)
              (Tensor2 (map (fun p => map to_int32 (snd (fst p))) padded) maximum)
              (Tensor2 (repeat (repeat 0%Z maximum) (length batch)) maximum)
              (Tensor2 (map snd padded) maximum))
  end.

(** *** Examples that collate is meant for

    An integer is held exactly by a float32 when its magnitude is at most
    [2^24]; token identifiers of a vocabulary and mask values are.  In a
    tokenized example the mask and the targets are as long as the token
    identifiers. *)

Definition float32_exact (z : Z) : Prop := (Z.abs z <= 2 ^ 24)%Z.

Definition tokenized_example (item : Example.t) : Prop :=
  length (Example.attention_mask item) = length (Example.input_ids item)
  /\ len (Example.targets item) = length (Example.input_ids item)
  /\ Forall float32_exact (Example.input_ids item)
  /\ Forall float32_exact (Example.attention_mask item).

(** The row of an example in a field of the batch: its values, on the
    right zeros up to [maximum]. *)
Definition padded_ints (maximum : nat) (v : list Z) : list Z :=
  v ++ repeat 0%Z (maximum - length v).
Definition padded_floats (maximum : nat) (t : tensor1) : list Q :=
  as_float32 t ++ repeat 0%Q (maximum - len t).

(** ** Concrete collaborators

    A small encoder, head and tokenizer on which the definitions can be run.
    The encoder returns six layers; the value of layer [j] at a position
    mixes the token with the sums of its whole window row, so an embedding
    does depend on the other tokens of its window. *)

Module Toy.

Definition row_sum (r : list Z) : Z := fold_right Z.add 0%Z r.

Definition layer (j : Z) (ids mask types : tensor2 Z) : tensor2 Z :=
  Tensor2 (map (fun b =>
                  let r := nth b (rows ids) [] in
                  let ctx := (row_sum r + row_sum (nth b (rows mask) [])
                              + row_sum (nth b (rows types) []))%Z in
                  map (fun x => (j * x + ctx)%Z) r)
               (seq 0 (batch_size ids)))
          (cols ids).

#[export] Instance encoder : Encoder := {|
  emb := Z;
  layer_mean := fun l => (row_sum l / Z.of_nat (length l))%Z;
  bert := fun ids mask types =>
            Some (map (fun j => layer j ids mask types) [1; 2; 3; 4; 5; 6]%Z)
|}.

#[export] Instance head : Head encoder := {|
  n_classes := 2;
  l1 := fun e => [inject_Z e; inject_Z (- e)];
  softmax := fun v => v;
  criterion := fun outputs labels => inject_Z (Z.of_nat (length (values labels)))
|}.

Definition code (c : Ascii.ascii) : Z := Z.of_nat (Ascii.nat_of_ascii c).

(** One token per character; the special tokens are 101 and 102. *)
#[export] Instance tokenizer : Tokenizer := {|
  tokenize := fun s add_special_tokens =>
    let body := map code (String.list_ascii_of_string s) in
    let ids := if add_special_tokens then 101%Z :: body ++ [102%Z] else body in
    Encoding.Make ids (repeat 0%Z (length ids)) (repeat 1%Z (length ids))
|}.

Definition arange (n : nat) : list Z := map Z.of_nat (seq 0 n).

(** A batch of two sequences of 1000 tokens. *)
Definition long_ids : tensor2 Z :=
  Tensor2 [arange 1000; map (Z.add 7) (arange 1000)] 1000.
Definition long_mask : tensor2 Z :=
  Tensor2 [repeat 1%Z 1000; repeat 1%Z 1000] 1000.
Definition long_types : tensor2 Z :=
  Tensor2 [repeat 0%Z 1000; repeat 0%Z 1000] 1000.

(** The same batch with other tokens in the first window only. *)
Definition long_ids' : tensor2 Z :=
  Tensor2 [map (Z.mul 3) (arange 512) ++ skipn 512 (arange 1000);
           repeat 9%Z 512 ++ skipn 512 (map (Z.add 7) (arange 1000))] 1000.

(** A batch of two sequences of 6 tokens. *)
Definition short_ids : tensor2 Z := Tensor2 [[5; 6; 7; 8; 9; 10]; [1; 2; 3; 0; 0; 0]]%Z 6.
Definition short_mask : tensor2 Z := Tensor2 [[1; 1; 1; 1; 1; 1]; [1; 1; 1; 0; 0; 0]]%Z 6.
Definition short_types : tensor2 Z := Tensor2 [[0; 0; 0; 0; 0; 0]; [0; 0; 0; 0; 0; 0]]%Z 6.

(** The six-token batch with its targets, and with targets for three
    tokens only. *)
Definition short_batch : Batch.t :=
  Batch.Make short_ids short_mask short_types
             (Tensor2 [[1; 1; 1; 1; 1; 1]; [0; 0; 0; 0; 0; 0]]%Q 6).
Definition mismatched_batch : Batch.t :=
  Batch.Make short_ids short_mask short_types
             (Tensor2 [[1; 1; 1]; [0; 0; 0]]%Q 3).

Import String.

(** A table of two papers whose sentences are interleaved, with row labels
    that are not positions.  Paper 7 has three sentences of 5, 7 and 3
    tokens labelled [True], [False], [True]. *)
Definition papers : list (Row String.string bool) :=
  [ MkRow 40 7 "hello"%string true;
    MkRow 12 3 "an"%string false;
    MkRow 41 7 "goodbye"%string false;
    MkRow 13 3 "apple"%string true;
    MkRow 45 7 "yes"%string true ]%Z.

(** The rows of paper 3 in that table. *)
Definition paper3 : list (Row String.string bool) :=
  [ MkRow 12 3 "an"%string false; MkRow 13 3 "apple"%string true ]%Z.

(** A table with a record without text and a record without label. *)
Definition malformed : list (Row (option String.string) (option bool)) :=
  [ MkRow 0 1 (Some "fine"%string) (Some true);
    MkRow 1 1 None (Some false);
    MkRow 2 2 (Some "unlabelled"%string) None ]%Z.

(** Two examples of lengths 3 and 5, one with boolean targets (paper level)
    and one with float targets (sentence level). *)
Definition examples : list Example.t :=
  [ Example.Make [7; 8; 9]%Z [1; 1; 1]%Z [0; 0; 0]%Z (BoolTensor [true; false; true]);
    Example.Make [101; 4; 5; 6; 102]%Z [1; 1; 1; 1; 1]%Z [0; 0; 0; 0; 0]%Z
                 (FloatTensor [1; 1; 1; 1; 1]%Q) ].

(** A table in which the label 0 is carried by two rows. *)
Definition repeated_labels : list (Row String.string bool) :=
  [ MkRow 0 1 "a"%string true;
    MkRow 1 1 "bc"%string false;
    MkRow 0 2 "def"%string true ]%Z.

End Toy.


(** ** get_token_scores *)

(** The rows of one key of a batch encoding as a tensor
    ([return_tensors='pt']): the rows must all have one length, and there
    must be a row. *)
Definition as_tensor (rows_ : list (list Z)) : option (tensor2 Z) :=
  match rows_ with
  | [] => None
  | r :: _ =>
      if forallb (fun r' => length r' =? length r) rows_
      then Some (Tensor2 rows_ (length r))
      else None
  end.

Section TokenScores.
Context {enc : Encoder} {head : Head enc} {tok : Tokenizer}.

(** [tokenizer(text, return_tensors='pt')] on a list of texts: special
    tokens are added (the default) and no padding is asked for, so texts
    with different numbers of tokens cannot be stacked and the call raises. *)
Definition tokenize_batch (text : list String.string)
  : option (tensor2 Z * tensor2 Z * tensor2 Z) :=
  let encodings := map (fun s => tokenize s true) text in
  input_ids <- as_tensor (map Encoding.input_ids encodings) ;;
  token_type_ids <- as_tensor (map Encoding.token_type_ids encodings) ;;
  attention_mask <- as_tensor (map Encoding.attention_mask encodings) ;;
  Some (input_ids, token_type_ids, attention_mask).

(** [get_token_scores(model, tokenizer, text)], with [enable_chunk] the
    setting of [model]: calling [model] on the three fields of the
    tokenizer result is [forward] with [train=False]. *)
Definition get_token_scores (enable_chunk : bool) (text : list String.string)
  : option (tensor2 Z * ndtensor) :=
  tokenized_input <- tokenize_batch text ;;
  let input_ids := fst (fst tokenized_input) in
  let token_type_ids := snd (fst tokenized_input) in
  let attention_mask := snd tokenized_input in
  scores <- forward enable_chunk input_ids attention_mask token_type_ids false ;;
  Some (input_ids, scores).

End TokenScores.

(** ** SummDataModule *)

(** [DataFrame.sample(n)] draws rows at random; the function stands for one
    outcome of the draw, [None] for a raised error. *)
Class Sampler : Type := {
  sample : forall {T L : Type}, list (Row T L) -> nat -> option (list (Row T L))
}.

(** The arguments of the constructor.  [train_size] is [None] for ["full"]. *)
Module SummDataModule.
Record t (T L : Type) : Type := Make {
  trainData : list (Row T L);
  testData : list (Row T L);
  valData : list (Row T L);
  batch_size : nat;
  workers : nat;
  train_size : option nat;
  process_paper_level : bool
}.
End SummDataModule.

(** The three attributes [setup] assigns. *)
Record Datasets (T L : Type) : Type := MkDatasets {
  train_dataset : SuMM_with_tokenizer T L;
  val_dataset : SuMM_with_tokenizer T L;
  test_dataset : SuMM_with_tokenizer T L
}.

(** The index batches of a sequential sampler over [n] items: consecutive
    runs of [batch_size] indices, the last run possibly shorter. *)
Definition batch_indices (n batch_size : nat) : list (list nat) :=
  map (fun b => seq (b * batch_size) (Nat.min batch_size (n - b * batch_size)))
      (seq 0 ((n + batch_size - 1) / batch_size)).

Section DataModule.
Context {tok : Tokenizer} {smp : Sampler}.

Definition setup {T L} (self : SummDataModule.t T L) : option (Datasets T L) :=
  train <- match SummDataModule.train_size self with
           | None => __init__ (SummDataModule.trainData self)
                              (SummDataModule.process_paper_level self)
           | Some n =>
               sampled <- sample (SummDataModule.trainData self) n ;;
               __init__ sampled (SummDataModule.process_paper_level self)
           end ;;
  val <- __init__ (SummDataModule.valData self)
                  (SummDataModule.process_paper_level self) ;;
  test <- __init__ (SummDataModule.testData self)
                   (SummDataModule.process_paper_level self) ;;
  Some (MkDatasets train val test).

(** [DataLoader(dataset, batch_size=..., shuffle=False, collate_fn=collate)]
    iterated to its end: every index batch is fetched item by item and
    collated.  A batch size of zero is refused. *)
Definition DataLoader (dataset : SuMM_with_tokenizer String.string bool)
           (batch_size : nat) : option (list Batch.t) :=
  if batch_size =? 0 then None
  else map_opt (fun indices =>
                  items <- map_opt (__getitem__ dataset) indices ;;
                  collate items)
               (batch_indices (__len__ dataset) batch_size).

Definition train_dataloader (self : SummDataModule.t String.string bool)
           (ds : Datasets String.string bool) : option (list Batch.t) :=
  DataLoader (train_dataset ds) (SummDataModule.batch_size self).

Definition val_dataloader (self : SummDataModule.t String.string bool)
           (ds : Datasets String.string bool) : option (list Batch.t) :=
  DataLoader (val_dataset ds) (SummDataModule.batch_size self).

Definition test_dataloader (self : SummDataModule.t String.string bool)
           (ds : Datasets String.string bool) : option (list Batch.t) :=
  DataLoader (test_dataset ds) (SummDataModule.batch_size self).

Definition train_len {T L} (ds : Datasets T L) : nat := length (data (train_dataset ds)).
Definition test_len {T L} (ds : Datasets T L) : nat := length (data (test_dataset ds)).
Definition val_len {T L} (ds : Datasets T L) : nat := length (data (val_dataset ds)).

End DataModule.

(** What pandas promises of [sample(n)] (without replacement): when it
    returns, it returns [n] of the rows of the frame, none of them twice. *)
Definition draws_without_replacement (smp : Sampler) : Prop :=
  forall (T L : Type) (table sampled : list (Row T L)) (n : nat),
    sample table n = Some sampled ->
    length sampled = n /\ exists rest, Permutation table (sampled ++ rest).

(** The three fields of every tokenizer result have one length. *)
Definition tokenizer_rectangular (tok : Tokenizer) : Prop :=
  forall s add_special_tokens,
    length (Encoding.attention_mask (tokenize s add_special_tokens))
    = length (Encoding.input_ids (tokenize s add_special_tokens))
    /\ length (Encoding.token_type_ids (tokenize s add_special_tokens))
       = length (Encoding.input_ids (tokenize s add_special_tokens)).

(** The attention mask of every tokenizer result is as long as its token
    identifiers. *)
Definition tokenizer_aligned (tok : Tokenizer) : Prop :=
  forall s add_special_tokens,
    length (Encoding.attention_mask (tokenize s add_special_tokens))
    = length (Encoding.input_ids (tokenize s add_special_tokens)).

(** ** Further statements and fixtures *)

(** The encoder [enc] with another network in the place of [bert]. *)
Definition with_bert (enc : Encoder)
           (bert' : tensor2 Z -> tensor2 Z -> tensor2 Z -> option (list (tensor2 (@emb enc))))
  : Encoder :=
  {| emb := @emb enc; layer_mean := @layer_mean enc; bert := bert' |}.

(** The head returns [n_classes] scores for every embedding and [softmax]
    keeps the number of scores. *)
Definition head_keeps_classes {enc : Encoder} (head : Head enc) : Prop :=
  (forall e, length (l1 e) = n_classes)
  /\ (forall v, length (softmax v) = length v).

(** The encoder contract on the inputs that [get_embedding] passes to it in
    the given mode. *)
Definition encoder_contract {enc : Encoder} (enable_chunk : bool)
           (input_ids attention_mask token_type_ids : tensor2 Z) : Prop :=
  if enable_chunk
  then forallb encoder_keeps_shape (windows input_ids attention_mask token_type_ids) = true
  else encoder_keeps_shape (slice_to 512 input_ids, slice_to 512 attention_mask,
                            slice_to 512 token_type_ids) = true.

(** The number of positions [get_embedding] returns for [L] tokens. *)
Definition embedded_length (enable_chunk : bool) (L : nat) : nat :=
  if enable_chunk then L else Nat.min 512 L.


(** A batch of [B] sequences of [L] positions: the three inputs have [L]
    columns, and the targets are a well-formed [B] x [L] tensor. *)
Definition batch_of_shape (batch : Batch.t) (B L : nat) : Prop :=
  cols (Batch.input_ids batch) = L
  /\ cols (Batch.attention_mask batch) = L
  /\ cols (Batch.token_type_ids batch) = L
  /\ batch_size (Batch.input_ids batch) = B
  /\ wf (Batch.targets batch)
  /\ cols (Batch.targets batch) = L
  /\ batch_size (Batch.targets batch) = B.

(** Whether a source of [n] elements can be written into the first [n]
    places of a buffer of [maximum] zeros: it is no longer than the buffer,
    or it has a single element (which is broadcast). *)
Definition fits_buffer (maximum n : nat) : bool := (n <=? maximum) || (n =? 1).

(** The longest [input_ids] of a batch of examples. *)
Definition longest (batch : list Example.t) : nat :=
  list_max (map (fun item => length (Example.input_ids item)) batch).


(** What a dataloader makes of one batch of indices: the items are fetched
    in order and collated; the batch has one row per index and as many
    columns as the longest of its items. *)
Definition fetched {tok : Tokenizer} (dataset : SuMM_with_tokenizer String.string bool)
           (indices : list nat) (batch : Batch.t) : Prop :=
  exists items,
    map_opt (__getitem__ dataset) indices = Some items
    /\ collate items = Some batch
    /\ length items = length indices
    /\ batch_of_shape batch (length items) (longest items).

Module Cases.

(** The network of [Toy] behind a guard that raises on more than 512
    positions, as a real encoder with 512 position embeddings does. *)
Definition guarded_bert (ids mask types : tensor2 Z) : option (list (tensor2 Z)) :=
  if (cols ids <=? 512) && (cols mask <=? 512) && (cols types <=? 512)
  then @bert Toy.encoder ids mask types
  else None.

(** The 1000-token batch of [Toy] with targets for every token. *)
Definition long_batch : Batch.t :=
  Batch.Make Toy.long_ids Toy.long_mask Toy.long_types
             (Tensor2 [repeat 1%Q 1000; repeat 0%Q 1000] 1000).


(** A draw that takes the last [n] rows, in reverse order. *)
#[export] Instance sampler : Sampler := {|
  sample := fun T L table n =>
              if n <=? length table then Some (firstn n (rev table)) else None
|}.

(** A data module over [Toy.papers] that keeps three training records. *)
Definition module3 : SummDataModule.t String.string bool :=
  SummDataModule.Make Toy.papers Toy.paper3 Toy.paper3 2 4 (Some 3) true.

(** A text of 600 characters. *)
Definition long_text : String.string :=
  String.string_of_list_ascii (repeat (Ascii.ascii_of_nat 97) 600).

End Cases.

(** * Proofs *)

Unset Implicit Arguments.

(** ** Lists *)

Lemma map_nth_seq {A} (l : list A) (d : A) :
  map (fun i => nth i l d) (seq 0 (length l)) = l.
Proof.
  induction l as [|a l IH]; simpl; [reflexivity|].
  f_equal. rewrite <- seq_shift, map_map. exact IH.
Qed.

Lemma firstn_all_le {A} (l : list A) (n : nat) :
  length l <= n -> firstn n l = l.
Proof. intros H. apply firstn_all2. exact H. Qed.

Lemma map_id_ext {A} (f : A -> A) (l : list A) :
  (forall x, In x l -> f x = x) -> map f l = l.
Proof.
  induction l as [|a l IH]; simpl; intros H; [reflexivity|].
  rewrite H by (left; reflexivity). f_equal. apply IH. intros x Hx. apply H. right. exact Hx.
Qed.

(** ** Shapes *)

Lemma wf_row {A} (t : tensor2 A) (r : list A) :
  wf t -> In r (rows t) -> length r = cols t.
Proof.
  unfold wf, wfb. intros H Hin.
  rewrite forallb_forall in H. apply Nat.eqb_eq. apply H. exact Hin.
Qed.

Lemma wf_intro {A} (t : tensor2 A) :
  (forall r, In r (rows t) -> length r = cols t) -> wf t.
Proof.
  intros H. unfold wf, wfb. apply forallb_forall. intros r Hr.
  apply Nat.eqb_eq. apply H. exact Hr.
Qed.

Lemma tensor2_eq {A} (t u : tensor2 A) :
  rows t = rows u -> cols t = cols u -> t = u.
Proof. destruct t, u; simpl; intros; subst; reflexivity. Qed.

Lemma narrow_whole {A} (t : tensor2 A) :
  wf t -> narrow t 0 (cols t) = t.
Proof.
  intros H. apply tensor2_eq; simpl; [|reflexivity].
  apply map_id_ext. intros r Hr. apply firstn_all_le.
  rewrite (wf_row t r H Hr). apply Nat.le_refl.
Qed.

Lemma slice_to_whole {A} (n : nat) (t : tensor2 A) :
  wf t -> cols t <= n -> slice_to n t = t.
Proof.
  intros H Hn. apply tensor2_eq; simpl.
  - apply map_id_ext. intros r Hr. apply firstn_all_le.
    rewrite (wf_row t r H Hr). exact Hn.
  - apply Nat.min_r. exact Hn.
Qed.

Lemma num_splits_small (L w : nat) :
  0 < w -> L <= w -> num_splits L w = 1.
Proof.
  intros Hw HL. unfold num_splits.
  destruct (Nat.eq_dec L 0) as [->|HL0].
  - simpl. rewrite Nat.div_small by lia. reflexivity.
  - assert (E : (L + w - 1) / w = 1).
    { symmetry. apply (Nat.div_unique (L + w - 1) w 1 (L - 1)); lia. }
    rewrite E. reflexivity.
Qed.

Lemma split_small {A} (w : nat) (t : tensor2 A) :
  0 < w -> wf t -> cols t <= w -> split w t = [t].
Proof.
  intros Hw Hwf HL. unfold split.
  rewrite (num_splits_small _ _ Hw HL). simpl.
  replace (w - (w * 1 - cols t)) with (cols t) by lia.
  rewrite (narrow_whole t Hwf). reflexivity.
Qed.

Lemma cat1_singleton {A} (t : tensor2 A) : cat1 [t] = Some t.
Proof.
  unfold cat1, batch_size. simpl. rewrite Nat.eqb_refl. simpl.
  f_equal. apply tensor2_eq; simpl.
  - rewrite <- (map_nth_seq (rows t) []) at 2.
    apply map_ext. intros b. apply app_nil_r.
  - lia.
Qed.

Lemma window_size_pos : 0 < window_size.
Proof. unfold window_size. lia. Qed.

(** ** Chunked and plain embedding on short inputs *)

Section EmbeddingShort.
Context {enc : Encoder}.

Lemma bind_singleton_cat1 (m : option (tensor2 emb)) :
  (x <- (b <- m ;; Some [b]) ;; cat1 x) = m.
Proof. destruct m as [x|]; simpl; [apply cat1_singleton | reflexivity]. Qed.

(** C1.  On a batch whose three tensors have the same token length
    [L <= 512], the chunked embedding is the embedding without chunking:
    the split has one window, which is the whole input, and concatenating
    the single result gives it back. *)
Theorem get_embedding_chunk_agrees_short
        (input_ids attention_mask token_type_ids : tensor2 Z) (L : nat) :
  wf input_ids -> wf attention_mask -> wf token_type_ids ->
  cols input_ids = L -> cols attention_mask = L -> cols token_type_ids = L ->
  L <= 512 ->
  get_embedding true input_ids attention_mask token_type_ids
  = get_embedding false input_ids attention_mask token_type_ids.
Proof.
  intros Hi Hm Ht Ei Em Et HL.
  unfold get_embedding, windows, chunk.
  rewrite !split_small by (try apply window_size_pos; try assumption;
                           unfold window_size; lia).
  rewrite !slice_to_whole by (try assumption; lia).
  simpl combine. unfold map_opt, embed_window.
  destruct (bert input_ids attention_mask token_type_ids) as [hs|]; simpl;
    [|reflexivity].
  destruct (mean_last5 hs) as [x|]; simpl; [apply cat1_singleton | reflexivity].
Qed.

End EmbeddingShort.

(** The theorem at the six-token batch of [Toy]. *)
Lemma get_embedding_chunk_agrees_short_witness :
  @get_embedding Toy.encoder true Toy.short_ids Toy.short_mask Toy.short_types
  = @get_embedding Toy.encoder false Toy.short_ids Toy.short_mask Toy.short_types.
Proof.
  apply (@get_embedding_chunk_agrees_short Toy.encoder
           Toy.short_ids Toy.short_mask Toy.short_types 6);
    try reflexivity.
  lia.
Defined.

(** ** The windows of [torch.split] *)

Lemma num_splits_bounds (L w : nat) :
  0 < w ->
  1 <= num_splits L w /\ (num_splits L w - 1) * w <= L /\ L <= num_splits L w * w.
Proof.
  intros Hw. unfold num_splits.
  pose proof (Nat.div_mod_eq (L + w - 1) w) as E.
  pose proof (Nat.mod_upper_bound (L + w - 1) w ltac:(lia)) as B.
  set (q := (L + w - 1) / w) in *. set (r := (L + w - 1) mod w) in *.
  destruct (Nat.max_spec q 1) as [[H1 ->]|[H1 ->]]; nia.
Qed.

(** The pieces of [split] are the slices [i*w : min((i+1)*w, L)]. *)
Lemma split_explicit {A} (w : nat) (t : tensor2 A) :
  0 < w ->
  split w t
  = map (fun i => narrow t (i * w) (Nat.min w (cols t - i * w)))
        (seq 0 (num_splits (cols t) w)).
Proof.
  intros Hw. unfold split.
  destruct (num_splits_bounds (cols t) w Hw) as (H1 & H2 & H3).
  set (n := num_splits (cols t) w) in *.
  apply map_ext_in. intros i Hi. apply in_seq in Hi. f_equal.
  destruct (Nat.ltb_spec i (n - 1)) as [Hlt|Hge].
  - symmetry. apply Nat.min_l. nia.
  - assert (i = n - 1) by lia. subst i. rewrite Nat.min_r by nia. nia.
Qed.

Lemma length_split {A} (w : nat) (t : tensor2 A) :
  length (split w t) = num_splits (cols t) w.
Proof. unfold split. rewrite length_map, length_seq. reflexivity. Qed.

Lemma narrow_wf {A} (t : tensor2 A) (start n : nat) :
  wf t -> start + n <= cols t -> wf (narrow t start n).
Proof.
  intros H Hle. apply wf_intro. simpl. intros r Hr.
  apply in_map_iff in Hr. destruct Hr as (r0 & <- & Hr0).
  rewrite length_firstn, length_skipn, (wf_row t r0 H Hr0). lia.
Qed.

Lemma batch_size_narrow {A} (t : tensor2 A) (start n : nat) :
  batch_size (narrow t start n) = batch_size t.
Proof. unfold batch_size. simpl. apply length_map. Qed.

Lemma split_pieces {A} (w : nat) (t c : tensor2 A) :
  0 < w -> wf t -> In c (split w t) ->
  wf c /\ batch_size c = batch_size t /\ cols c <= w.
Proof.
  intros Hw Hwf Hin. rewrite split_explicit in Hin by exact Hw.
  apply in_map_iff in Hin. destruct Hin as (i & <- & Hi).
  apply in_seq in Hi.
  destruct (num_splits_bounds (cols t) w Hw) as (H1 & H2 & H3).
  split; [|split].
  - apply narrow_wf; [exact Hwf | nia].
  - apply batch_size_narrow.
  - simpl. lia.
Qed.

Lemma num_splits_512 (L : nat) : 0 < L -> num_splits L 512 = (L + 511) / 512.
Proof.
  intros HL. unfold num_splits.
  replace (L + 512 - 1) with (L + 511) by lia.
  apply Nat.max_l.
  pose proof (Nat.div_mod_eq (L + 511) 512) as E.
  pose proof (Nat.mod_upper_bound (L + 511) 512 ltac:(lia)) as B.
  lia.
Qed.

Lemma chunk_by_bounds {A} (t : tensor2 A) :
  0 < cols t ->
  chunk t = map (fun ab => narrow t (fst ab) (snd ab - fst ab)) (chunk_bounds (cols t)).
Proof.
  intros HL. unfold chunk, chunk_bounds, window_size.
  rewrite split_explicit by lia. rewrite num_splits_512 by exact HL.
  rewrite map_map. apply map_ext. intros i. simpl fst. simpl snd.
  f_equal. lia.
Qed.

(** ** Cutting a list into windows and gluing it back *)

Lemma flat_map_map {A B C} (f : B -> list C) (g : A -> B) (l : list A) :
  flat_map f (map g l) = flat_map (fun x => f (g x)) l.
Proof. induction l as [|a l IH]; simpl; [reflexivity | rewrite IH; reflexivity]. Qed.

Lemma flat_map_ext_in {A B} (f g : A -> list B) (l : list A) :
  (forall x, In x l -> f x = g x) -> flat_map f l = flat_map g l.
Proof.
  induction l as [|a l IH]; simpl; intros H; [reflexivity|].
  rewrite H by (left; reflexivity). f_equal. apply IH.
  intros x Hx. apply H. right. exact Hx.
Qed.

Lemma length_flat_map_sum {A B} (f : A -> list B) (l : list A) :
  length (flat_map f l) = list_sum (map (fun x => length (f x)) l).
Proof.
  induction l as [|a l IH]; simpl; [reflexivity|].
  rewrite length_app, IH. reflexivity.
Qed.

Lemma firstn_min_length {A} (w : nat) (r : list A) :
  firstn (Nat.min w (length r)) r = firstn w r.
Proof.
  destruct (Nat.le_ge_cases w (length r)) as [H|H].
  - rewrite Nat.min_l by exact H. reflexivity.
  - rewrite Nat.min_r by exact H. rewrite firstn_all, firstn_all_le by exact H.
    reflexivity.
Qed.

Lemma glue_windows {A} (w n : nat) :
  forall r : list A,
    length r <= n * w ->
    flat_map (fun i => firstn (Nat.min w (length r - i * w)) (skipn (i * w) r)) (seq 0 n)
    = r.
Proof.
  induction n as [|n IH]; intros r Hr.
  - simpl in *. destruct r; [reflexivity | simpl in Hr; lia].
  - cbn [seq flat_map]. rewrite <- seq_shift, flat_map_map.
    rewrite Nat.mul_0_l, Nat.sub_0_r. cbn [skipn].
    rewrite firstn_min_length.
    transitivity (firstn w r ++ skipn w r); [|apply firstn_skipn]. f_equal.
    etransitivity; [|apply (IH (skipn w r)); rewrite length_skipn; lia].
    apply flat_map_ext_in. intros i _.
    rewrite skipn_skipn, length_skipn. f_equal.
    + f_equal. lia.
    + f_equal. lia.
Qed.

Lemma sum_window_lengths (w L n : nat) :
  list_sum (map (fun i => Nat.min w (L - i * w)) (seq 0 n)) = Nat.min L (n * w).
Proof.
  induction n as [|n IH].
  - simpl. lia.
  - rewrite seq_S, map_app, list_sum_app, IH. simpl. nia.
Qed.

(** In a concatenation whose first [k] pieces have length [w], the piece
    number [k] sits at positions [k*w ...]. *)
Lemma concat_window {A} (w : nat) :
  forall (k : nat) (ls : list (list A)),
    (forall i, i < k -> length (nth i ls []) = w) ->
    k < length ls ->
    firstn (length (nth k ls [])) (skipn (k * w) (concat ls)) = nth k ls [].
Proof.
  induction k as [|k IH]; intros ls Hlen Hk.
  - destruct ls as [|a ls]; [simpl in Hk; lia|]. simpl.
    rewrite firstn_app, Nat.sub_diag, firstn_all. simpl. apply app_nil_r.
  - destruct ls as [|a ls]; [simpl in Hk; lia|].
    assert (Ha : length a = w) by (apply (Hlen 0); lia).
    cbn [nth concat]. rewrite skipn_app, Ha.
    replace (S k * w - w) with (k * w) by lia.
    rewrite (skipn_all2 a) by lia. cbn [app].
    apply IH.
    + intros i Hi. apply (Hlen (S i)). lia.
    + simpl in Hk. lia.
Qed.

(** ** Concatenation along the token axis *)

Lemma cat1_some {A} (B : nat) (t0 : tensor2 A) (ts : list (tensor2 A)) :
  (forall t, In t (t0 :: ts) -> batch_size t = B) ->
  cat1 (t0 :: ts)
  = Some (Tensor2 (map (fun b => flat_map (fun t => nth b (rows t) []) (t0 :: ts))
                       (seq 0 B))
                  (list_sum (map (@cols A) (t0 :: ts)))).
Proof.
  intros HB. unfold cat1.
  assert (E0 : batch_size t0 = B) by (apply HB; left; reflexivity).
  replace (forallb (fun t => batch_size t =? batch_size t0) (t0 :: ts)) with true.
  - rewrite E0. reflexivity.
  - symmetry. apply forallb_forall. intros t Ht. apply Nat.eqb_eq.
    rewrite E0. apply HB. exact Ht.
Qed.

Lemma cat1_inv {A} (ts : list (tensor2 A)) (o : tensor2 A) :
  cat1 ts = Some o ->
  exists t0 rest, ts = t0 :: rest /\
    (forall t, In t ts -> batch_size t = batch_size t0) /\
    o = Tensor2 (map (fun b => flat_map (fun t => nth b (rows t) []) ts)
                     (seq 0 (batch_size t0)))
                (list_sum (map (@cols A) ts)).
Proof.
  destruct ts as [|t0 rest]; [discriminate|]. unfold cat1.
  destruct (forallb _ _) eqn:E; [|discriminate].
  intros H. injection H as <-. exists t0, rest. split; [reflexivity|]. split.
  - intros t Ht. rewrite forallb_forall in E. apply Nat.eqb_eq. apply E. exact Ht.
  - reflexivity.
Qed.

Lemma nth_row_length {A} (t : tensor2 A) (b : nat) :
  wf t -> b < batch_size t -> length (nth b (rows t) []) = cols t.
Proof. intros H Hb. apply wf_row; [exact H | apply nth_In; exact Hb]. Qed.

(** A concatenation of well-formed pieces is well formed, its batch size is
    theirs and its token length is the sum of theirs. *)
Lemma cat1_shape {A} (ts : list (tensor2 A)) (o : tensor2 A) :
  Forall wf ts -> cat1 ts = Some o ->
  wf o /\ cols o = list_sum (map (@cols A) ts) /\
  (forall t, In t ts -> batch_size t = batch_size o).
Proof.
  intros Hwf H. apply cat1_inv in H. destruct H as (t0 & rest & -> & HB & ->).
  assert (EB : batch_size (Tensor2
            (map (fun b => flat_map (fun t => nth b (rows t) []) (t0 :: rest))
                 (seq 0 (batch_size t0)))
            (list_sum (map (@cols A) (t0 :: rest)))) = batch_size t0).
  { unfold batch_size at 1. cbn [rows]. rewrite length_map, length_seq. reflexivity. }
  split; [|split].
  - apply wf_intro. cbn [rows cols]. intros r Hr.
    apply in_map_iff in Hr. destruct Hr as (b & <- & Hb). apply in_seq in Hb.
    rewrite length_flat_map_sum. f_equal. apply map_ext_in. intros t Ht.
    apply nth_row_length.
    + rewrite Forall_forall in Hwf. apply Hwf. exact Ht.
    + rewrite (HB t Ht). lia.
  - reflexivity.
  - intros t Ht. rewrite EB. apply HB. exact Ht.
Qed.

(** The piece number [k] of a concatenation is found again at the positions
    [k*w ...] when the pieces before it have [w] columns. *)
Lemma narrow_cat1 {A} (w k : nat) (ts : list (tensor2 A)) (o : tensor2 A) :
  Forall wf ts -> cat1 ts = Some o ->
  k < length ts ->
  (forall i, i < k -> cols (nth i ts empty_tensor) = w) ->
  narrow o (k * w) (cols (nth k ts empty_tensor)) = nth k ts empty_tensor.
Proof.
  intros Hwf H Hk Hcols. apply cat1_inv in H.
  destruct H as (t0 & rest & E & HB & ->).
  set (d := @empty_tensor A) in *.
  assert (Hin : forall i, i < length ts -> In (nth i ts d) ts)
    by (intros i Hi; apply nth_In; exact Hi).
  rewrite Forall_forall in Hwf.
  apply tensor2_eq; [|reflexivity]. cbn [narrow rows].
  rewrite map_map.
  rewrite <- (map_nth_seq (rows (nth k ts d)) []).
  fold (batch_size (nth k ts d)). rewrite (HB _ (Hin k Hk)).
  apply map_ext_in. intros b Hb. apply in_seq in Hb.
  rewrite flat_map_concat_map.
  assert (Hnth : forall i, nth i (map (fun t => nth b (rows t) []) ts) []
                           = nth b (rows (nth i ts d)) []).
  { intros i.
    assert (Ed : nth b (rows d) [] = @nil A) by (destruct b; reflexivity).
    rewrite <- (map_nth (fun t => nth b (rows t) []) ts d i). cbv beta.
    rewrite Ed. reflexivity. }
  assert (Hlen : forall i, i < length ts ->
                           length (nth b (rows (nth i ts d)) []) = cols (nth i ts d)).
  { intros i Hi. apply nth_row_length; [apply Hwf, Hin, Hi|].
    rewrite (HB _ (Hin i Hi)). lia. }
  rewrite <- (Hlen k Hk), <- Hnth.
  apply concat_window.
  - intros i Hi. rewrite Hnth, Hlen by lia. apply Hcols. exact Hi.
  - rewrite length_map. exact Hk.
Qed.

Lemma cat1_nonempty {A} (B : nat) (ts : list (tensor2 A)) :
  ts <> [] ->
  (forall t, In t ts -> batch_size t = B) ->
  cat1 ts
  = Some (Tensor2 (map (fun b => flat_map (fun t => nth b (rows t) []) ts) (seq 0 B))
                  (list_sum (map (@cols A) ts))).
Proof.
  destruct ts as [|t0 rest]; [intros H; contradiction H; reflexivity|].
  intros _ HB. apply cat1_some. exact HB.
Qed.

(** Splitting and concatenating gives the tensor back: the windows cover
    every position once, in order. *)
Lemma cat1_split {A} (w : nat) (t : tensor2 A) :
  0 < w -> wf t -> cat1 (split w t) = Some t.
Proof.
  intros Hw Hwf.
  destruct (num_splits_bounds (cols t) w Hw) as (H1 & H2 & H3).
  rewrite (cat1_nonempty (batch_size t)).
  - f_equal. rewrite split_explicit by exact Hw. apply tensor2_eq; cbn [rows cols].
    + transitivity (map (fun b => nth b (rows t) []) (seq 0 (batch_size t)));
        [|apply map_nth_seq].
      apply map_ext_in. intros b Hb. apply in_seq in Hb.
      rewrite flat_map_map.
      transitivity
        (flat_map (fun i => firstn (Nat.min w (length (nth b (rows t) []) - i * w))
                                   (skipn (i * w) (nth b (rows t) [])))
                  (seq 0 (num_splits (cols t) w))).
      * apply flat_map_ext_in. intros i _. cbn [narrow rows].
        rewrite (nth_indep _ [] (firstn (Nat.min w (cols t - i * w)) (skipn (i * w) [])))
          by (rewrite length_map; fold (batch_size t); lia).
        rewrite (map_nth (fun r => firstn (Nat.min w (cols t - i * w)) (skipn (i * w) r))).
        rewrite (nth_row_length t b Hwf) by lia. reflexivity.
      * apply glue_windows. rewrite (nth_row_length t b Hwf) by lia. exact H3.
    + rewrite map_map. cbn [narrow cols]. rewrite sum_window_lengths. lia.
  - intros E. apply (f_equal (@length _)) in E. rewrite length_split in E.
    simpl in E. lia.
  - intros c Hc. apply (split_pieces w t c Hw Hwf Hc).
Qed.

(** ** Pooling the last five layers *)

Lemma same_shape_spec {A B} (t : tensor2 A) (u : tensor2 B) :
  same_shape t u = true <-> batch_size t = batch_size u /\ cols t = cols u.
Proof.
  unfold same_shape. rewrite andb_true_iff, !Nat.eqb_eq. reflexivity.
Qed.

Lemma map_opt_all {A B} (f : A -> option B) (P : A -> B -> Prop) (l : list A) :
  (forall a, In a l -> exists b, f a = Some b /\ P a b) ->
  exists bs, map_opt f l = Some bs /\ Forall2 (fun a b => f a = Some b /\ P a b) l bs.
Proof.
  induction l as [|a l IH]; intros H.
  - exists []. split; [reflexivity | constructor].
  - destruct (H a (or_introl eq_refl)) as (b & Eb & Pb).
    destruct IH as (bs & Ebs & Fbs); [intros x Hx; apply H; right; exact Hx|].
    exists (b :: bs). split.
    + simpl. rewrite Eb. simpl. rewrite Ebs. reflexivity.
    + constructor; [split; assumption | exact Fbs].
Qed.

Lemma Forall2_nth_both {A B} (R : A -> B -> Prop) (l : list A) (l' : list B)
      (k : nat) (d : A) (d' : B) :
  Forall2 R l l' -> k < length l -> R (nth k l d) (nth k l' d').
Proof.
  intros F. revert k. induction F as [|a b l l' Hab F IH]; intros k Hk.
  - simpl in Hk. lia.
  - destruct k as [|k]; simpl; [exact Hab | apply IH; simpl in Hk; lia].
Qed.

Lemma combine_map_both {A B C} (f : A -> B) (g : A -> C) (l : list A) :
  combine (map f l) (map g l) = map (fun x => (f x, g x)) l.
Proof. induction l as [|a l IH]; simpl; [reflexivity | rewrite IH; reflexivity]. Qed.

Section EmbeddingLong.
Context {enc : Encoder}.

Lemma mean_last5_shape {A} (x : tensor2 A) (hs : list (tensor2 emb)) :
  layers_like x hs = true ->
  exists e, mean_last5 hs = Some e /\ wf e /\
            batch_size e = batch_size x /\ cols e = cols x.
Proof.
  destruct hs as [|h0 rest]; [discriminate|]. intros H.
  unfold layers_like in H. rewrite forallb_forall in H.
  destruct (proj1 (same_shape_spec x h0) (H h0 (or_introl eq_refl))) as (Eb & Ec).
  unfold mean_last5.
  replace (forallb (same_shape h0) (h0 :: rest)) with true.
  - eexists. split; [reflexivity|]. split; [|split].
    + apply wf_intro. cbn [rows cols]. intros r Hr.
      apply in_map_iff in Hr. destruct Hr as (b & <- & _).
      rewrite length_map, length_seq. reflexivity.
    + unfold batch_size at 1. cbn [rows].
      rewrite length_map, length_seq. symmetry. exact Eb.
    + cbn [cols]. symmetry. exact Ec.
  - symmetry. apply forallb_forall. intros h Hh.
    destruct (proj1 (same_shape_spec x h) (H h Hh)) as (Eb' & Ec').
    apply same_shape_spec. split; congruence.
Qed.

Lemma embed_window_shape (c : tensor2 Z * tensor2 Z * tensor2 Z) :
  encoder_keeps_shape c = true ->
  exists e, embed_window c = Some e /\ wf e /\
            batch_size e = batch_size (fst (fst c)) /\ cols e = cols (fst (fst c)).
Proof.
  destruct c as [[c0 c1] c2]. unfold encoder_keeps_shape, embed_window. cbn [fst snd].
  destruct (bert c0 c1 c2) as [hs|]; [|discriminate].
  intros H. cbn [bind]. apply mean_last5_shape. exact H.
Qed.

(** With a common token length the three splits have the same pieces, so
    the zip pairs window [i] of each. *)
Lemma windows_explicit (ids mask types : tensor2 Z) (L : nat) :
  cols ids = L -> cols mask = L -> cols types = L ->
  windows ids mask types
  = map (fun i => (narrow ids (i * 512) (Nat.min 512 (L - i * 512)),
                   narrow mask (i * 512) (Nat.min 512 (L - i * 512)),
                   narrow types (i * 512) (Nat.min 512 (L - i * 512))))
        (seq 0 (num_splits L 512)).
Proof.
  intros Ei Em Et. unfold windows, chunk, window_size.
  rewrite !split_explicit by lia. rewrite Ei, Em, Et.
  rewrite combine_map_both.
  rewrite (combine_map_both
             (fun i => (narrow ids (i * 512) (Nat.min 512 (L - i * 512)),
                        narrow mask (i * 512) (Nat.min 512 (L - i * 512))))).
  reflexivity.
Qed.

End EmbeddingLong.

Lemma Forall2_In_right {A B} (R : A -> B -> Prop) (l : list A) (l' : list B) (b : B) :
  Forall2 R l l' -> In b l' -> exists a, In a l /\ R a b.
Proof.
  intros F. induction F as [|a b0 l l' Hab F IH]; intros Hin; [contradiction|].
  destruct Hin as [<-|Hin].
  - exists a. split; [left; reflexivity | exact Hab].
  - destruct (IH Hin) as (a' & Ha' & Ra'). exists a'. split; [right|]; assumption.
Qed.

Lemma Forall2_list_sum {A B} (f : A -> nat) (g : B -> nat) (l : list A) (l' : list B) :
  Forall2 (fun a b => g b = f a) l l' -> list_sum (map g l') = list_sum (map f l).
Proof.
  intros F. induction F as [|a b l l' Hab F IH]; simpl; [reflexivity|].
  rewrite Hab, IH. reflexivity.
Qed.

Section EmbeddingChunks.
Context {enc : Encoder}.

Lemma chunked_embedding (ids mask types : tensor2 Z) (L : nat) :
  cols ids = L -> cols mask = L -> cols types = L ->
  forallb encoder_keeps_shape (windows ids mask types) = true ->
  exists embs out,
    Forall2 embedded_as (windows ids mask types) embs /\
    cat1 embs = Some out /\
    get_embedding true ids mask types = Some out /\
    wf out /\ cols out = L /\ batch_size out = batch_size ids.
Proof.
  intros Ei Em Et Henc. rewrite forallb_forall in Henc.
  destruct (map_opt_all embed_window
              (fun win e => wf e /\ batch_size e = batch_size (fst (fst win))
                            /\ cols e = cols (fst (fst win)))
              (windows ids mask types)) as (embs & Eembs & F).
  { intros win Hwin. destruct (embed_window_shape win (Henc win Hwin)) as (e & He).
    exists e. exact He. }
  assert (Hwin : forall win, In win (windows ids mask types) ->
                 batch_size (fst (fst win)) = batch_size ids).
  { rewrite (windows_explicit ids mask types L Ei Em Et).
    intros win Hin. apply in_map_iff in Hin. destruct Hin as (i & <- & _).
    cbn [fst]. apply batch_size_narrow. }
  assert (HB : forall e, In e embs -> batch_size e = batch_size ids).
  { intros e He. destruct (Forall2_In_right _ _ _ e F He) as (win & Hw & _ & _ & Eb & _).
    rewrite Eb. apply Hwin. exact Hw. }
  assert (Hne : embs <> []).
  { intros E. apply Forall2_length in F. rewrite E in F.
    rewrite (windows_explicit ids mask types L Ei Em Et), length_map, length_seq in F.
    pose proof (num_splits_bounds L 512 ltac:(lia)). simpl in F. lia. }
  pose proof (cat1_nonempty (batch_size ids) embs Hne HB) as Ecat.
  eexists embs, _. split; [exact F|]. split; [exact Ecat|].
  assert (Hwfs : Forall wf embs).
  { apply Forall_forall. intros e He.
    destruct (Forall2_In_right _ _ _ e F He) as (win & _ & _ & Hwf & _). exact Hwf. }
  destruct (cat1_shape embs _ Hwfs Ecat) as (Hwfo & Hcols & _).
  split; [|split; [exact Hwfo | split]].
  - unfold get_embedding. rewrite Eembs. cbn [bind]. exact Ecat.
  - rewrite Hcols.
    rewrite (Forall2_list_sum (fun win => cols (fst (fst win))) (@cols emb)
               (windows ids mask types) embs).
    + rewrite (windows_explicit ids mask types L Ei Em Et), map_map. cbn [fst narrow cols].
      rewrite sum_window_lengths.
      pose proof (num_splits_bounds L 512 ltac:(lia)). lia.
    + eapply Forall2_impl; [|exact F]. intros win e (_ & _ & _ & Ec). exact Ec.
  - unfold batch_size at 1. cbn [rows]. rewrite length_map, length_seq. reflexivity.
Qed.

End EmbeddingChunks.

Section EmbeddingLongInputs.
Context {enc : Encoder}.

Lemma windows_by_bounds (ids mask types : tensor2 Z) (L : nat) :
  cols ids = L -> cols mask = L -> cols types = L -> 0 < L ->
  windows ids mask types
  = map (fun ab => (narrow ids (fst ab) (snd ab - fst ab),
                    narrow mask (fst ab) (snd ab - fst ab),
                    narrow types (fst ab) (snd ab - fst ab)))
        (chunk_bounds L).
Proof.
  intros Ei Em Et HL. rewrite (windows_explicit ids mask types L Ei Em Et).
  unfold chunk_bounds. rewrite map_map, num_splits_512 by exact HL.
  apply map_ext. intros i. cbn [fst snd].
  replace (Nat.min ((i + 1) * 512) L - i * 512) with (Nat.min 512 (L - i * 512)) by lia.
  reflexivity.
Qed.

Lemma slice_to_narrow {A} (n : nat) (t : tensor2 A) :
  n <= cols t -> slice_to n (narrow t 0 n) = slice_to n t.
Proof.
  intros H. apply tensor2_eq; cbn [slice_to narrow rows cols].
  - rewrite map_map. apply map_ext. intros r. cbn [skipn].
    rewrite firstn_firstn, Nat.min_id. reflexivity.
  - lia.
Qed.

(** C2.  On a batch of token length [L > 512], when the encoder returns,
    for each window it is given, layers with the batch size and the
    sequence length of that window:
    - the windows are the slices [i*512 : min((i+1)*512, L)] of the three
      inputs, and concatenating the windows of an input gives it back;
    - the chunked embedding is the concatenation, in window order, of one
      embedding per window, each as long as its window; it is well formed
      with exactly [L] positions per batch element;
    - the embedding without chunking is well formed with exactly 512
      positions per batch element and is the embedding of the first 512
      positions alone. *)
Theorem get_embedding_long
        (input_ids attention_mask token_type_ids : tensor2 Z) (L : nat) :
  wf input_ids -> wf attention_mask -> wf token_type_ids ->
  cols input_ids = L -> cols attention_mask = L -> cols token_type_ids = L ->
  512 < L ->
  forallb encoder_keeps_shape (windows input_ids attention_mask token_type_ids) = true ->
  encoder_keeps_shape (slice_to 512 input_ids, slice_to 512 attention_mask,
                       slice_to 512 token_type_ids) = true ->
  (windows input_ids attention_mask token_type_ids
   = map (fun ab => (narrow input_ids (fst ab) (snd ab - fst ab),
                     narrow attention_mask (fst ab) (snd ab - fst ab),
                     narrow token_type_ids (fst ab) (snd ab - fst ab)))
         (chunk_bounds L))
  /\ (cat1 (chunk input_ids) = Some input_ids
      /\ cat1 (chunk attention_mask) = Some attention_mask
      /\ cat1 (chunk token_type_ids) = Some token_type_ids)
  /\ (exists embs out,
         Forall2 embedded_as (windows input_ids attention_mask token_type_ids) embs
         /\ cat1 embs = Some out
         /\ get_embedding true input_ids attention_mask token_type_ids = Some out
         /\ wf out /\ cols out = L /\ batch_size out = batch_size input_ids)
  /\ (exists out,
         get_embedding false input_ids attention_mask token_type_ids = Some out
         /\ wf out /\ cols out = 512 /\ batch_size out = batch_size input_ids
         /\ get_embedding false (narrow input_ids 0 512) (narrow attention_mask 0 512)
                          (narrow token_type_ids 0 512) = Some out).
Proof.
  intros Hi Hm Ht Ei Em Et HL Hwin Hcut.
  split; [|split; [|split]].
  - apply windows_by_bounds; try assumption. lia.
  - unfold chunk. rewrite !cat1_split by (try apply window_size_pos; assumption).
    repeat split.
  - apply chunked_embedding; assumption.
  - destruct (embed_window_shape _ Hcut) as (out & Eout & Hwf & Eb & Ec).
    cbn [fst] in Eb, Ec. unfold embed_window in Eout.
    exists out. split; [exact Eout|]. split; [exact Hwf|]. split; [|split].
    + rewrite Ec. cbn [slice_to cols]. lia.
    + rewrite Eb. unfold batch_size. cbn [slice_to rows]. apply length_map.
    + unfold get_embedding. rewrite !slice_to_narrow by lia. exact Eout.
Qed.

End EmbeddingLongInputs.

(** The theorem at the 1000-token batch of [Toy]: the windows are [0:512]
    and [512:1000], the chunked embedding has 1000 positions and the plain
    one 512. *)
Lemma get_embedding_long_witness :
  chunk_bounds 1000 = [(0, 512); (512, 1000)]
  /\ (exists out,
         @get_embedding Toy.encoder true Toy.long_ids Toy.long_mask Toy.long_types = Some out
         /\ wf out /\ cols out = 1000 /\ batch_size out = 2)
  /\ (exists out,
         @get_embedding Toy.encoder false Toy.long_ids Toy.long_mask Toy.long_types = Some out
         /\ wf out /\ cols out = 512 /\ batch_size out = 2).
Proof.
  destruct (@get_embedding_long Toy.encoder Toy.long_ids Toy.long_mask Toy.long_types 1000)
    as (_ & _ & (embs & out & _ & _ & E & Hwf & Hc & Hb) & (out' & E' & Hwf' & Hc' & Hb' & _));
    try (vm_compute; reflexivity).
  - lia.
  - split; [vm_compute; reflexivity|]. split.
    + exists out. repeat split; assumption.
    + exists out'. repeat split; assumption.
Defined.

(** ** Windows do not see each other *)

Section EmbeddingLocal.
Context {enc : Encoder}.


Lemma nth_window (ids mask types : tensor2 Z) (L i : nat) :
  cols ids = L -> cols mask = L -> cols types = L ->
  i < num_splits L 512 ->
  nth i (windows ids mask types) empty_window
  = (narrow ids (i * 512) (Nat.min 512 (L - i * 512)),
     narrow mask (i * 512) (Nat.min 512 (L - i * 512)),
     narrow types (i * 512) (Nat.min 512 (L - i * 512))).
Proof.
  intros Ei Em Et Hi. rewrite (windows_explicit ids mask types L Ei Em Et).
  set (f := fun i => (narrow ids (i * 512) (Nat.min 512 (L - i * 512)),
                      narrow mask (i * 512) (Nat.min 512 (L - i * 512)),
                      narrow types (i * 512) (Nat.min 512 (L - i * 512)))).
  rewrite (nth_indep _ empty_window (f 0)) by (rewrite length_map, length_seq; exact Hi).
  rewrite (map_nth f), seq_nth by exact Hi. reflexivity.
Qed.

(** The embedding of window [k], cut out of the chunked embedding. *)
Lemma window_of_embedding (ids mask types : tensor2 Z) (L k : nat) :
  cols ids = L -> cols mask = L -> cols types = L ->
  forallb encoder_keeps_shape (windows ids mask types) = true ->
  k < num_splits L 512 ->
  exists out e,
    get_embedding true ids mask types = Some out /\
    embed_window (narrow ids (k * 512) (Nat.min 512 (L - k * 512)),
                  narrow mask (k * 512) (Nat.min 512 (L - k * 512)),
                  narrow types (k * 512) (Nat.min 512 (L - k * 512))) = Some e /\
    narrow out (k * 512) (Nat.min 512 (L - k * 512)) = e.
Proof.
  intros Ei Em Et Henc Hk.
  destruct (chunked_embedding ids mask types L Ei Em Et Henc)
    as (embs & out & F & Ecat & Eout & _).
  assert (Hlen : length (windows ids mask types) = num_splits L 512).
  { rewrite (windows_explicit ids mask types L Ei Em Et), length_map, length_seq.
    reflexivity. }
  assert (Hnth : forall i, i < num_splits L 512 ->
            embed_window (nth i (windows ids mask types) empty_window)
            = Some (nth i embs (@empty_tensor emb))
            /\ cols (nth i embs (@empty_tensor emb)) = Nat.min 512 (L - i * 512)).
  { intros i Hi.
    destruct (Forall2_nth_both embedded_as _ _ i empty_window (@empty_tensor emb) F
                ltac:(rewrite Hlen; exact Hi)) as (E & _ & _ & Ec).
    split; [exact E|]. rewrite Ec, (nth_window ids mask types L i Ei Em Et Hi).
    reflexivity. }
  destruct (Hnth k Hk) as (Ek & Ck).
  exists out, (nth k embs (@empty_tensor emb)). split; [exact Eout|]. split.
  - rewrite <- (nth_window ids mask types L k Ei Em Et Hk). exact Ek.
  - rewrite <- Ck. apply (narrow_cat1 512 k embs out).
    + apply Forall_forall. intros e He.
      destruct (Forall2_In_right _ _ _ e F He) as (win & _ & _ & Hwf & _). exact Hwf.
    + exact Ecat.
    + rewrite <- (Forall2_length F), Hlen. exact Hk.
    + intros i Hi. destruct (Hnth i ltac:(lia)) as (_ & Ci).
      fold (@empty_tensor emb). rewrite Ci.
      pose proof (num_splits_bounds L 512 ltac:(lia)). lia.
Qed.

(** C6.  Two batches of the same token length that agree, on the three
    inputs, at every position of window [k] get the same embedding at
    every position of that window, whatever the other windows hold (the
    encoder returning, on each window, layers of the shape of the
    window). *)
Theorem get_embedding_window_local
        (ids mask types ids' mask' types' : tensor2 Z) (L k : nat) :
  cols ids = L -> cols mask = L -> cols types = L ->
  cols ids' = L -> cols mask' = L -> cols types' = L ->
  forallb encoder_keeps_shape (windows ids mask types) = true ->
  forallb encoder_keeps_shape (windows ids' mask' types') = true ->
  k < length (chunk ids) ->
  narrow ids (k * 512) (Nat.min 512 (L - k * 512))
  = narrow ids' (k * 512) (Nat.min 512 (L - k * 512)) ->
  narrow mask (k * 512) (Nat.min 512 (L - k * 512))
  = narrow mask' (k * 512) (Nat.min 512 (L - k * 512)) ->
  narrow types (k * 512) (Nat.min 512 (L - k * 512))
  = narrow types' (k * 512) (Nat.min 512 (L - k * 512)) ->
  exists out out',
    get_embedding true ids mask types = Some out /\
    get_embedding true ids' mask' types' = Some out' /\
    narrow out (k * 512) (Nat.min 512 (L - k * 512))
    = narrow out' (k * 512) (Nat.min 512 (L - k * 512)).
Proof.
  intros Ei Em Et Ei' Em' Et' Henc Henc' Hk Ai Am At.
  unfold chunk, window_size in Hk. rewrite length_split, Ei in Hk.
  destruct (window_of_embedding ids mask types L k Ei Em Et Henc Hk)
    as (out & e & Eout & Ee & En).
  destruct (window_of_embedding ids' mask' types' L k Ei' Em' Et' Henc' Hk)
    as (out' & e' & Eout' & Ee' & En').
  exists out, out'. split; [exact Eout|]. split; [exact Eout'|].
  rewrite En, En'. rewrite Ai, Am, At in Ee. congruence.
Qed.

End EmbeddingLocal.

(** The theorem at two 1000-token batches of [Toy] that differ in the first
    window only: their embeddings agree on the second window. *)
Lemma get_embedding_window_local_witness :
  Toy.long_ids <> Toy.long_ids' /\
  exists out out',
    @get_embedding Toy.encoder true Toy.long_ids Toy.long_mask Toy.long_types = Some out /\
    @get_embedding Toy.encoder true Toy.long_ids' Toy.long_mask Toy.long_types = Some out' /\
    narrow out 512 488 = narrow out' 512 488.
Proof.
  split; [intros E; vm_compute in E; discriminate E|].
  apply (@get_embedding_window_local Toy.encoder
           Toy.long_ids Toy.long_mask Toy.long_types
           Toy.long_ids' Toy.long_mask Toy.long_types 1000 1);
    try (vm_compute; reflexivity).
Defined.

(** ** Label expansion *)

Lemma flat_map_rows {A B} (f : A -> B) (ls : list (list A)) :
  flat_map (fun r => map f r) ls = map f (concat ls).
Proof.
  induction ls as [|r ls IH]; simpl; [reflexivity|].
  rewrite map_app, IH. reflexivity.
Qed.

Lemma expand_targets_rows (targets : tensor2 Q) :
  concat (rows targets) <> [] ->
  expand_targets targets
  = Some (Tensor2 (map (fun v => expand_label (to_bool v)) (concat (rows targets))) 2).
Proof.
  intros H. unfold expand_targets. rewrite flat_map_rows.
  destruct (concat (rows targets)) as [|v l]; [contradiction H; reflexivity|].
  reflexivity.
Qed.

Lemma to_bool_zero (v : Q) : v == 0 -> to_bool v = false.
Proof.
  intros H. unfold to_bool. apply Qeq_bool_iff in H. rewrite H. reflexivity.
Qed.

Lemma to_bool_nonzero (v : Q) : ~ v == 0 -> to_bool v = true.
Proof.
  intros H. unfold to_bool. destruct (Qeq_bool v 0) eqn:E; [|reflexivity].
  apply Qeq_bool_iff in E. contradiction.
Qed.

(** C9.  [expand_targets] tests each target value against zero: the rows of
    its result follow the values of [targets] in row-major order, the row of
    a value that is not zero is [[1, 0]] and the row of a zero is [[0, 1]]. *)
Theorem expand_targets_by_truth (targets : tensor2 Q) :
  concat (rows targets) <> [] ->
  exists out,
    expand_targets targets = Some out /\ cols out = 2 /\
    Forall2 (fun v r => (~ v == 0 -> r = [1%Q; 0%Q]) /\ (v == 0 -> r = [0%Q; 1%Q]))
            (concat (rows targets)) (rows out).
Proof.
  intros H. rewrite (expand_targets_rows targets H).
  eexists. split; [reflexivity|]. split; [reflexivity|]. cbn [rows].
  induction (concat (rows targets)) as [|v l IH]; [constructor|].
  cbn [map]. constructor.
  - split; intros Hv.
    + rewrite (to_bool_nonzero v Hv). reflexivity.
    + rewrite (to_bool_zero v Hv). reflexivity.
  - destruct l as [|v' l]; [constructor|]. apply IH. discriminate.
Qed.

(** The theorem on the targets [0.5, -1, 0, 1]: only the zero gets [[0, 1]]. *)
Lemma expand_targets_by_truth_witness :
  expand_targets (Tensor2 [[1 # 2; - (1)]; [0; 1]]%Q 2)
  = Some (Tensor2 [[1; 0]; [1; 0]; [0; 1]; [1; 0]]%Q 2).
Proof.
  destruct (expand_targets_by_truth (Tensor2 [[1 # 2; - (1)]; [0; 1]]%Q 2))
    as (out & E & _ & _).
  - simpl. discriminate.
  - rewrite E. vm_compute in E. injection E as <-. reflexivity.
Defined.

Lemma argmax_expand_label (b : bool) :
  argmax (expand_label b) = if b then 0 else 1.
Proof. destruct b; reflexivity. Qed.

(** C5, as stated.  Taking the argmax of the expanded vector does not give
    the label back: label 1 is expanded to [[1, 0]], whose argmax is 0. *)
Lemma argmax_does_not_invert_expand_targets :
  ~ (forall (b : bool) (out : tensor2 Q),
        expand_targets (Tensor2 [[of_label b]] 1) = Some out ->
        map argmax (rows out) = [if b then 1 else 0]).
Proof.
  intros H. specialize (H true (Tensor2 [[1; 0]]%Q 2) eq_refl).
  vm_compute in H. discriminate H.
Qed.

(** C5, amended.  Label 1 is expanded to [[1, 0]] and label 0 to [[0, 1]];
    the argmax of the expanded vector is the index of the class, 0 for
    label 1 and 1 for label 0, so the label is recovered as [1 - argmax],
    for every matrix of boolean labels. *)
Theorem expand_targets_inverted_by_argmax (bs : list (list bool)) (n : nat) :
  concat bs <> [] ->
  exists out,
    expand_targets (Tensor2 (map (map of_label) bs) n) = Some out /\
    rows out = map (fun b : bool => if b then [1%Q; 0%Q] else [0%Q; 1%Q]) (concat bs) /\
    map (fun r => 1 - argmax r) (rows out)
    = map (fun b : bool => if b then 1 else 0) (concat bs).
Proof.
  intros H.
  assert (E : concat (map (map of_label) bs) = map of_label (concat bs))
    by (symmetry; apply concat_map).
  rewrite expand_targets_rows; cbn [rows]; rewrite E.
  - eexists. split; [reflexivity|]. cbn [rows]. rewrite !map_map. split.
    + apply map_ext. intros b. destruct b; reflexivity.
    + apply map_ext. intros b. destruct b; reflexivity.
  - destruct (concat bs); [contradiction H; reflexivity | discriminate].
Qed.

Lemma expand_targets_inverted_by_argmax_witness :
  exists out,
    expand_targets (Tensor2 [[1; 0; 0]; [0; 1; 1]]%Q 3) = Some out /\
    rows out = [[1; 0]; [0; 1]; [0; 1]; [0; 1]; [1; 0]; [1; 0]]%Q /\
    map (fun r => 1 - argmax r) (rows out) = [1; 0; 0; 0; 1; 1].
Proof.
  apply (expand_targets_inverted_by_argmax
           [[true; false; false]; [false; true; true]] 3).
  simpl. discriminate.
Defined.

(** ** Reshaping the labels in the steps *)

Lemma reshape_as_mismatch (t other : ndtensor) :
  numel t <> numel other -> reshape_as t other = None.
Proof.
  intros H. unfold reshape_as. destruct (Nat.eqb_spec (numel t) (numel other));
    [contradiction | reflexivity].
Qed.

Lemma reshape_as_match (t other : ndtensor) :
  numel t = numel other ->
  reshape_as t other = Some (NdTensor (shape other) (values t)).
Proof. intros H. unfold reshape_as. rewrite H, Nat.eqb_refl. reflexivity. Qed.

Section StepsReshape.
Context {enc : Encoder} {head : Head enc}.
Variable enable_chunk : bool.

(** C8.  In the training, validation and test steps, once the forward pass
    has produced [outputs] and the targets are expanded to [labels0]:
    - when the two hold different numbers of elements the step raises;
    - otherwise the loss is computed between [outputs] and the values of
      [labels0], unchanged and in the same order, under the shape of
      [outputs]. *)
Theorem steps_reshape_labels_or_fail (batch : Batch.t) (train : bool)
        (outputs : ndtensor) (labels0 : tensor2 Q) :
  forward enable_chunk (Batch.input_ids batch) (Batch.attention_mask batch)
          (Batch.token_type_ids batch) train = Some outputs ->
  expand_targets (Batch.targets batch) = Some labels0 ->
  let labels := NdTensor (shape outputs) (values (nd_of_tensor2 labels0)) in
  (numel (nd_of_tensor2 labels0) <> numel outputs ->
   (train = true -> training_step enable_chunk batch = None) /\
   (train = false -> validation_step enable_chunk batch = None
                     /\ test_step enable_chunk batch = None))
  /\
  (numel (nd_of_tensor2 labels0) = numel outputs ->
   shape labels = shape outputs /\
   (train = true ->
    training_step enable_chunk batch
    = Some (StepOutput (criterion outputs labels) outputs labels)) /\
   (train = false ->
    validation_step enable_chunk batch = Some (criterion outputs labels)
    /\ test_step enable_chunk batch = Some (criterion outputs labels))).
Proof.
  intros Hf He labels. split; intros Hn.
  - split; intros ->; unfold training_step, validation_step, test_step;
      rewrite Hf, He; cbn [bind]; rewrite (reshape_as_mismatch _ _ Hn);
      repeat split.
  - split; [reflexivity|].
    split; intros ->; unfold training_step, validation_step, test_step;
      rewrite Hf, He; cbn [bind]; rewrite (reshape_as_match _ _ Hn);
      repeat split.
Qed.

End StepsReshape.

(** The theorem at [Toy]: with targets for three tokens against outputs for
    six the training step raises; with targets for all six tokens the
    labels take the shape of the output. *)
Lemma steps_reshape_labels_or_fail_witness :
  @training_step Toy.encoder Toy.head true Toy.mismatched_batch = None
  /\ exists r, @training_step Toy.encoder Toy.head true Toy.short_batch = Some r
               /\ shape (labels r) = [2; 6; 2]
               /\ shape (predictions r) = [2; 6; 2].
Proof.
  split.
  - destruct (@forward Toy.encoder Toy.head true Toy.short_ids Toy.short_mask
                       Toy.short_types true) as [outputs|] eqn:Hf;
      [|vm_compute in Hf; discriminate Hf].
    destruct (expand_targets (Batch.targets Toy.mismatched_batch)) as [labels0|] eqn:He;
      [|vm_compute in He; discriminate He].
    apply (@steps_reshape_labels_or_fail Toy.encoder Toy.head true Toy.mismatched_batch
             true outputs labels0 Hf He); [|reflexivity].
    vm_compute in Hf. injection Hf as <-.
    vm_compute in He. injection He as <-.
    vm_compute. discriminate.
  - destruct (@forward Toy.encoder Toy.head true Toy.short_ids Toy.short_mask
                       Toy.short_types true) as [outputs|] eqn:Hf;
      [|vm_compute in Hf; discriminate Hf].
    destruct (expand_targets (Batch.targets Toy.short_batch)) as [labels0|] eqn:He;
      [|vm_compute in He; discriminate He].
    destruct (@steps_reshape_labels_or_fail Toy.encoder Toy.head true Toy.short_batch
                true outputs labels0 Hf He) as (_ & Hok).
    assert (Hn : numel (nd_of_tensor2 labels0) = numel outputs).
    { vm_compute in Hf. injection Hf as <-.
      vm_compute in He. injection He as <-. vm_compute. reflexivity. }
    destruct (Hok Hn) as (Hs & Ht & _).
    eexists. split; [apply Ht; reflexivity|]. cbn [labels predictions].
    vm_compute in Hf. injection Hf as <-. split; reflexivity.
Defined.

(** ** Grouping by key *)

Lemma insert_key_In (k x : Z) (ks : list Z) :
  In x (insert_key k ks) <-> x = k \/ In x ks.
Proof.
  induction ks as [|k' r IH]; simpl.
  - split; intros [H|H]; auto; contradiction.
  - destruct (Z.ltb_spec k k') as [Hlt|Hge].
    + simpl. split; intros [H|H]; auto.
    + destruct (Z.eqb_spec k k') as [->|Hne].
      * simpl. split; intros H; [right; exact H | destruct H as [->|H]; auto].
      * simpl. rewrite IH. split; intros H; destruct H as [H|[H|H]]; auto.
Qed.

Lemma insert_key_sorted (k : Z) (ks : list Z) :
  StronglySorted Z.lt ks -> StronglySorted Z.lt (insert_key k ks).
Proof.
  induction ks as [|k' r IH]; simpl; intros H.
  - constructor; constructor.
  - inversion H as [|? ? Hr Hall]; subst.
    destruct (Z.ltb_spec k k') as [Hlt|Hge].
    + constructor; [exact H|]. constructor; [exact Hlt|].
      rewrite Forall_forall in *. intros x Hx. specialize (Hall x Hx). lia.
    + destruct (Z.eqb_spec k k') as [->|Hne]; [exact H|].
      constructor; [apply IH; exact Hr|].
      rewrite Forall_forall in *. intros x Hx.
      apply insert_key_In in Hx. destruct Hx as [->|Hx]; [lia | apply Hall; exact Hx].
Qed.

Lemma sorted_NoDup (ks : list Z) : StronglySorted Z.lt ks -> NoDup ks.
Proof.
  induction 1 as [|k r Hr IH Hall]; constructor; [|exact IH].
  intros Hin. rewrite Forall_forall in Hall. specialize (Hall k Hin). lia.
Qed.

Lemma group_keys_sorted {R} (key : R -> Z) (df : list R) :
  StronglySorted Z.lt (group_keys key df).
Proof.
  unfold group_keys. induction df as [|r df IH]; simpl;
    [constructor | apply insert_key_sorted; exact IH].
Qed.

Lemma group_keys_In {R} (key : R -> Z) (df : list R) (k : Z) :
  In k (group_keys key df) <-> exists r, In r df /\ key r = k.
Proof.
  unfold group_keys. induction df as [|r df IH]; simpl.
  - split; [contradiction | intros (r & [] & _)].
  - rewrite insert_key_In, IH. split.
    + intros [->|(r' & Hr' & E)]; [exists r; auto | exists r'; auto].
    + intros (r' & [<-|Hr'] & E); [left; auto | right; exists r'; auto].
Qed.

Lemma group_keys_NoDup {R} (key : R -> Z) (df : list R) : NoDup (group_keys key df).
Proof. apply sorted_NoDup, group_keys_sorted. Qed.

(** A frame whose rows share one key has that key alone. *)
Lemma group_keys_single {R} (key : R -> Z) (df : list R) (k : Z) :
  df <> [] -> (forall r, In r df -> key r = k) -> group_keys key df = [k].
Proof.
  unfold group_keys. induction df as [|r df IH]; intros Hne Hk; [contradiction Hne; reflexivity|].
  simpl. rewrite (Hk r (or_introl eq_refl)).
  destruct df as [|r' df'].
  - reflexivity.
  - rewrite IH; [|discriminate | intros x Hx; apply Hk; right; exact Hx].
    simpl. rewrite Z.ltb_irrefl, Z.eqb_refl. reflexivity.
Qed.

Lemma filter_all {A} (p : A -> bool) (l : list A) :
  (forall x, In x l -> p x = true) -> filter p l = l.
Proof.
  induction l as [|a l IH]; simpl; intros H; [reflexivity|].
  rewrite H by (left; reflexivity). f_equal. apply IH. intros x Hx. apply H. right. exact Hx.
Qed.


(** ** The store of tokenizer results *)

Lemma store_set_app (pre post : store) (x d : tokens_dict) :
  store_set (pre ++ x :: post) (length pre) d = pre ++ d :: post.
Proof. induction pre as [|a pre IH]; simpl; [reflexivity | rewrite IH; reflexivity]. Qed.

Lemma nth_error_app_mid {A} (pre post : list A) (x : A) :
  nth_error (pre ++ x :: post) (length pre) = Some x.
Proof. induction pre as [|a pre IH]; simpl; [reflexivity | exact IH]. Qed.

Lemma map_opt_some {A B} (f : A -> option B) (g : A -> B) (l : list A) :
  (forall x, In x l -> f x = Some (g x)) -> map_opt f l = Some (map g l).
Proof.
  induction l as [|a l IH]; intros H; simpl; [reflexivity|].
  rewrite H by (left; reflexivity). cbn [bind].
  rewrite IH by (intros x Hx; apply H; right; exact Hx). reflexivity.
Qed.

Lemma map_opt_map_some {A B C} (f : B -> option C) (h : A -> B) (g : A -> C)
      (l : list A) :
  (forall x, In x l -> f (h x) = Some (g x)) -> map_opt f (map h l) = Some (map g l).
Proof.
  intros H. rewrite <- (map_map h (fun y => y)), map_id.
  induction l as [|a l IH]; simpl; [reflexivity|].
  rewrite H by (left; reflexivity). cbn [bind].
  rewrite IH by (intros x Hx; apply H; right; exact Hx). reflexivity.
Qed.

Lemma map_fst_combine_seq {A} (l : list A) (start : nat) :
  map fst (combine l (seq start (length l))) = l.
Proof.
  revert start. induction l as [|a l IH]; intros start; simpl;
    [reflexivity | rewrite IH; reflexivity].
Qed.

Lemma filter_fst_combine {A B} (p : A -> bool) (l : list A) (ns : list B) :
  length ns = length l ->
  map fst (filter (fun row => p (fst row)) (combine l ns)) = filter p l.
Proof.
  revert ns. induction l as [|a l IH]; intros ns Hn; [reflexivity|].
  destruct ns as [|n ns]; [discriminate|]. simpl.
  destruct (p a); simpl; rewrite IH by (simpl in Hn; lia); reflexivity.
Qed.

Section CombineInputs.
Context {tok : Tokenizer}.


(** After the second [assign] every object of the store carries the targets
    of its row. *)
Lemma propagate_labels_all (df : list (Row String.string bool)) :
  forall pre : store,
    propagate_labels (pre ++ map fresh_tokens df) (combine df (seq (length pre) (length df)))
    = Some (pre ++ map labelled_tokens df).
Proof.
  unfold propagate_labels.
  induction df as [|r df IH]; intros pre; [reflexivity|].
  cbn [map length seq combine fold_left bind snd fst].
  rewrite nth_error_app_mid. cbn [bind]. rewrite store_set_app.
  change (pre ++ TokensDict (dict_encoding (fresh_tokens r))
                   (Some (repeat (in_summary r)
                            (length (Encoding.input_ids (dict_encoding (fresh_tokens r))))))
              :: map fresh_tokens df)
    with (pre ++ [labelled_tokens r] ++ map fresh_tokens df).
  rewrite app_assoc.
  replace (S (length pre)) with (length (pre ++ [labelled_tokens r]))
    by (rewrite length_app; simpl; lia).
  rewrite IH, <- app_assoc. reflexivity.
Qed.

Lemma store_lookup (f : Row String.string bool -> tokens_dict)
      (df : list (Row String.string bool)) :
  forall (pre : store) (row : Row String.string bool * nat),
    In row (combine df (seq (length pre) (length df))) ->
    nth_error (pre ++ map f df) (snd row) = Some (f (fst row)).
Proof.
  induction df as [|r df IH]; intros pre row Hin; [contradiction|].
  cbn [length seq combine] in Hin. destruct Hin as [<-|Hin].
  - cbn [fst snd map]. apply nth_error_app_mid.
  - cbn [map]. change (pre ++ f r :: map f df) with (pre ++ [f r] ++ map f df).
    rewrite app_assoc. apply IH.
    rewrite length_app. simpl. rewrite Nat.add_1_r. exact Hin.
Qed.

(** The aggregation of rows of the frame is the example of these rows. *)
Lemma agg_rows (df : list (Row String.string bool))
      (group : list (Row String.string bool * nat)) :
  (forall row, In row group -> In row (combine df (seq 0 (length df)))) ->
  agg (map labelled_tokens df) (map snd group) = Some (paper_example (map fst group)).
Proof.
  intros Hin. unfold agg.
  rewrite (map_opt_map_some (nth_error (map labelled_tokens df)) snd
             (fun row => labelled_tokens (fst row))).
  - cbn [bind].
    rewrite (map_opt_map_some dict_targets (fun row => labelled_tokens (fst row))
               (fun row => sentence_targets (fst row)))
      by reflexivity.
    cbn [bind]. unfold paper_example. rewrite !map_map. reflexivity.
  - intros row Hrow. apply (store_lookup labelled_tokens df []). apply Hin. exact Hrow.
Qed.

(** [combine_inputs] gives the example of the rows of the first group. *)
Lemma combine_inputs_first_group (df : list (Row String.string bool)) :
  combine_inputs df
  = match groupby (@paper_id String.string bool) df with
    | [] => None
    | g :: _ => Some (paper_example (snd g))
    end.
Proof.
  unfold combine_inputs, assign_tokens.
  pose proof (propagate_labels_all df []) as Hp.
  cbn [app length] in Hp.
  rewrite Hp. cbn [bind].
  unfold groupby.
  assert (Ek : group_keys (fun row : Row String.string bool * nat => paper_id (fst row))
                          (combine df (seq 0 (length df)))
               = group_keys (@paper_id String.string bool) df).
  { unfold group_keys. rewrite <- (map_map fst (@paper_id String.string bool)).
    rewrite map_fst_combine_seq. reflexivity. }
  rewrite Ek.
  rewrite (map_opt_map_some _ _
             (fun k => paper_example (filter (fun r => (paper_id r =? k)%Z) df))).
  - cbn [bind]. destruct (group_keys (@paper_id String.string bool) df); reflexivity.
  - intros k _. cbn [snd]. rewrite (agg_rows df).
    + rewrite (filter_fst_combine (fun r => (paper_id r =? k)%Z))
        by apply length_seq.
      reflexivity.
    + intros row Hrow. apply filter_In in Hrow. apply Hrow.
Qed.

End CombineInputs.

(** ** Selecting rows by label *)

Lemma filter_none {A} (p : A -> bool) (l : list A) :
  (forall x, In x l -> p x = false) -> filter p l = [].
Proof.
  induction l as [|a l IH]; simpl; intros H; [reflexivity|].
  rewrite H by (left; reflexivity). apply IH. intros x Hx. apply H. right. exact Hx.
Qed.

Lemma filter_label_unique {T L} (df : list (Row T L)) (r : Row T L) :
  NoDup (map (@label T L) df) -> In r df ->
  filter (fun r' => (label r' =? label r)%Z) df = [r].
Proof.
  induction df as [|a df IH]; intros Hnd Hin; [contradiction|].
  cbn [map] in Hnd. inversion Hnd as [|? ? Hnotin Hnd']; subst.
  cbn [filter]. destruct Hin as [->|Hin].
  - rewrite Z.eqb_refl. f_equal. apply filter_none. intros x Hx.
    apply Z.eqb_neq. intros E. apply Hnotin. rewrite <- E. apply in_map. exact Hx.
  - destruct (Z.eqb_spec (label a) (label r)) as [E|_].
    + exfalso. apply Hnotin. rewrite E. apply in_map. exact Hin.
    + apply IH; assumption.
Qed.

(** With distinct row labels, selecting the labels of some rows of the
    frame gives these rows back, in the order asked. *)
Lemma loc_rows {T L} (df rows_ : list (Row T L)) :
  NoDup (map (@label T L) df) ->
  (forall r, In r rows_ -> In r df) ->
  loc df (map (@label T L) rows_) = Some rows_.
Proof.
  intros Hnd Hin. unfold loc.
  rewrite (map_opt_map_some _ _ (fun r => [r])).
  - cbn [bind]. f_equal. induction rows_ as [|r l IH]; simpl; [reflexivity|].
    f_equal. apply IH. intros x Hx. apply Hin. right. exact Hx.
  - intros r Hr. rewrite (filter_label_unique df r Hnd (Hin r Hr)). reflexivity.
Qed.

(** ** The groups are a partition *)

Lemma flat_map_nil {A B} (l : list A) : flat_map (fun _ => @nil B) l = [].
Proof. induction l; simpl; auto. Qed.

Lemma groups_partition {R} (key : R -> Z) (l : list R) (ks : list Z) :
  NoDup ks -> (forall r, In r l -> In (key r) ks) ->
  Permutation (flat_map (fun k => filter (fun r => (key r =? k)%Z) l) ks) l.
Proof.
  intros Hnd. induction l as [|a l IH]; intros Hks.
  - cbn [filter]. rewrite flat_map_nil. constructor.
  - destruct (in_split (key a) ks (Hks a (or_introl eq_refl))) as (ks1 & ks2 & E).
    assert (Hout : forall k, In k (ks1 ++ ks2) ->
                   filter (fun r => (key r =? k)%Z) (a :: l)
                   = filter (fun r => (key r =? k)%Z) l).
    { intros k Hk. cbn [filter].
      destruct (Z.eqb_spec (key a) k) as [Ek|_]; [|reflexivity].
      exfalso. rewrite E in Hnd. apply NoDup_remove_2 in Hnd. apply Hnd.
      rewrite Ek. exact Hk. }
    assert (IH' := IH (fun r Hr => Hks r (or_intror Hr))).
    rewrite E in IH' |- *. rewrite !flat_map_app in IH' |- *.
    cbn [flat_map] in IH' |- *.
    rewrite (flat_map_ext_in _ (fun k => filter (fun r => (key r =? k)%Z) l) ks1)
      by (intros k Hk; apply Hout, in_or_app; left; exact Hk).
    rewrite (flat_map_ext_in _ (fun k => filter (fun r => (key r =? k)%Z) l) ks2)
      by (intros k Hk; apply Hout, in_or_app; right; exact Hk).
    cbn [filter]. rewrite Z.eqb_refl. cbn [app].
    apply Permutation_sym, Permutation_cons_app, Permutation_sym. exact IH'.
Qed.

Lemma groupby_partition {R} (key : R -> Z) (df : list R) :
  Permutation (concat (map snd (groupby key df))) df.
Proof.
  unfold groupby. rewrite map_map. cbn [snd]. rewrite <- flat_map_concat_map.
  apply groups_partition.
  - apply group_keys_NoDup.
  - intros r Hr. apply group_keys_In. exists r. split; [exact Hr | reflexivity].
Qed.

Lemma group_nonempty {R} (key : R -> Z) (df : list R) (k : Z) :
  In k (group_keys key df) -> filter (fun r => (key r =? k)%Z) df <> [].
Proof.
  intros Hk. apply group_keys_In in Hk. destruct Hk as (r & Hr & E).
  intros Hnil.
  assert (Hin : In r (filter (fun r => (key r =? k)%Z) df))
    by (apply filter_In; split; [exact Hr | apply Z.eqb_eq; exact E]).
  rewrite Hnil in Hin. contradiction.
Qed.

(** Grouping the rows of one group again gives that group alone. *)
Lemma groupby_group {R} (key : R -> Z) (df : list R) (k : Z) :
  In k (group_keys key df) ->
  groupby key (filter (fun r => (key r =? k)%Z) df)
  = [(k, filter (fun r => (key r =? k)%Z) df)].
Proof.
  intros Hk. unfold groupby.
  assert (Hall : forall r, In r (filter (fun r => (key r =? k)%Z) df) -> key r = k).
  { intros r Hr. apply filter_In in Hr. apply Z.eqb_eq. apply Hr. }
  rewrite (group_keys_single key _ k (group_nonempty key df k Hk) Hall).
  cbn [map]. rewrite filter_all; [reflexivity|].
  intros r Hr. apply Z.eqb_eq. apply Hall. exact Hr.
Qed.

(** ** Paper-level items *)

Section PaperLevel.
Context {tok : Tokenizer}.

Lemma getitem_paper (table : list (Row String.string bool))
      (dataset : SuMM_with_tokenizer String.string bool) (index : nat) (k : Z) :
  NoDup (map (@label String.string bool) table) ->
  __init__ table true = Some dataset ->
  nth_error (group_keys (@paper_id String.string bool) table) index = Some k ->
  let sentences := filter (fun r => (paper_id r =? k)%Z) table in
  nth_error (papers_dict dataset) index = Some (map (@label String.string bool) sentences)
  /\ loc table (map (@label String.string bool) sentences) = Some sentences
  /\ combine_inputs sentences = Some (paper_example sentences)
  /\ __getitem__ dataset index = Some (paper_example sentences).
Proof.
  intros Hnd Hinit Hk sentences. injection Hinit as <-.
  assert (Hdict : nth_error (map (fun g => map (@label String.string bool) (snd g))
                                 (groupby (@paper_id String.string bool) table)) index
                  = Some (map (@label String.string bool) sentences)).
  { unfold groupby. rewrite map_map. cbn [snd].
    apply (map_nth_error (fun k => map (@label String.string bool)
                                       (filter (fun r => (paper_id r =? k)%Z) table))).
    exact Hk. }
  assert (Hloc : loc table (map (@label String.string bool) sentences) = Some sentences).
  { apply loc_rows; [exact Hnd|]. intros r Hr. apply filter_In in Hr. apply Hr. }
  assert (Hcomb : combine_inputs sentences = Some (paper_example sentences)).
  { rewrite combine_inputs_first_group. unfold sentences.
    rewrite groupby_group by (apply nth_error_In with index; exact Hk). reflexivity. }
  split; [exact Hdict|]. split; [exact Hloc|]. split; [exact Hcomb|].
  unfold __getitem__. cbn [process_paper_level papers_dict data].
  rewrite Hdict. cbn [bind]. rewrite Hloc. cbn [bind]. exact Hcomb.
Qed.

Lemma length_concat_sum {A} (ls : list (list A)) :
  length (concat ls) = list_sum (map (@length A) ls).
Proof.
  induction ls as [|l ls IH]; simpl; [reflexivity|].
  rewrite length_app, IH. reflexivity.
Qed.

Lemma len_paper_level {T L} (table : list (Row T L))
      (dataset : SuMM_with_tokenizer T L) :
  __init__ table true = Some dataset ->
  __len__ dataset = length (group_keys (@paper_id T L) table).
Proof.
  intros Hinit. injection Hinit as <-. unfold __len__, value_counts.
  cbn [process_paper_level data]. rewrite length_map.
  apply Permutation_length, NoDup_Permutation.
  - apply NoDup_nodup.
  - apply group_keys_NoDup.
  - intros k. rewrite nodup_In, group_keys_In, in_map_iff.
    split; intros (r & H1 & H2); exists r; auto.
Qed.


End PaperLevel.


(** ** The precondition of [combine_inputs] *)


Section SinglePaper.
Context {tok : Tokenizer}.


End SinglePaper.


(** ** Construction does not look at the text or the label *)

(** C7, as stated.  The table [Toy.malformed] has a record without text and
    a record without label, and constructing the dataset over it does not
    raise. *)
Lemma init_accepts_malformed_records :
  (exists r, In r Toy.malformed /\ text r = None)
  /\ (exists r, In r Toy.malformed /\ in_summary r = None)
  /\ ~ (@__init__ (option String.string) (option bool) Toy.malformed false = None)
  /\ ~ (@__init__ (option String.string) (option bool) Toy.malformed true = None).
Proof.
  split; [|split; [|split]].
  - eexists. split; [right; left; reflexivity | reflexivity].
  - eexists. split; [right; right; left; reflexivity | reflexivity].
  - discriminate.
  - discriminate.
Qed.

(** C7, amended.  Constructing the dataset checks neither the text nor the
    label: whatever the [text] and [in_summary] cells of the table hold,
    missing values included, the construction succeeds, keeps every record,
    counts every record in sentence mode, and in paper-level mode lists the
    label of every record in [papers_dict]. *)
Theorem init_performs_no_validation {T L : Type} (table : list (Row T L))
        (paper_level : bool) :
  exists dataset,
    __init__ table paper_level = Some dataset
    /\ data dataset = table
    /\ process_paper_level dataset = paper_level
    /\ (paper_level = false -> __len__ dataset = length table)
    /\ Permutation (concat (papers_dict dataset)) (map (@label T L) table).
Proof.
  eexists. split; [reflexivity|]. cbn [data process_paper_level papers_dict].
  split; [reflexivity|]. split; [reflexivity|]. split.
  - intros ->. reflexivity.
  - rewrite <- (map_map snd (map (@label T L))), <- concat_map.
    apply Permutation_map, groupby_partition.
Qed.

(** ** Collation *)

Lemma to_float32_exact (z : Z) : float32_exact z -> to_float32 z = z.
Proof.
  unfold float32_exact, to_float32. intros H.
  destruct (Z.leb_spec (Z.abs z) (2 ^ 24)) as [_|Hgt]; [reflexivity | lia].
Qed.

Lemma to_int32_inject_Z (z : Z) : to_int32 (inject_Z z) = z.
Proof. unfold to_int32, inject_Z. cbn [Qnum Qden]. apply Z.quot_1_r. Qed.

Lemma int_round_trip (v : list Z) :
  Forall float32_exact v -> map to_int32 (as_float32 (IntTensor v)) = v.
Proof.
  induction 1 as [|z v Hz Hv IH]; [reflexivity|].
  cbn [as_float32 map] in *. rewrite IH, (to_float32_exact z Hz), to_int32_inject_Z.
  reflexivity.
Qed.

Lemma skipn_repeat_zero {A} (a : A) (n m : nat) :
  skipn n (repeat a m) = repeat a (m - n).
Proof.
  revert n. induction m as [|m IH]; intros n; destruct n as [|n]; simpl; auto.
Qed.

Lemma length_as_float32 (t : tensor1) : length (as_float32 t) = len t.
Proof. destruct t; simpl; [apply length_map | apply length_map | reflexivity]. Qed.

(** Padding a tensor that fits: its values, then zeros up to [maximum]. *)
Lemma pad_fits (maximum : nat) (t : tensor1) :
  len t <= maximum ->
  pad maximum t = Some (as_float32 t ++ repeat 0%Q (maximum - len t)).
Proof.
  intros H. unfold pad. rewrite (Nat.min_l _ _ H), Nat.eqb_refl, skipn_repeat_zero.
  reflexivity.
Qed.

Lemma map_to_int32_zeros (n : nat) : map to_int32 (repeat 0%Q n) = repeat 0%Z n.
Proof. induction n as [|n IH]; simpl; [reflexivity | rewrite IH; reflexivity]. Qed.

Lemma length_le_list_max {A} (f : A -> nat) (l : list A) (x : A) :
  In x l -> f x <= list_max (map f l).
Proof.
  intros Hx.
  assert (H : Forall (fun k => k <= list_max (map f l)) (map f l))
    by (apply list_max_le; apply Nat.le_refl).
  rewrite Forall_forall in H. apply H. apply in_map. exact Hx.
Qed.

Lemma collate_nonempty (batch : list Example.t) :
  batch <> [] ->
  collate batch
  = (let maximum :=
       list_max (map (fun item => length (Example.input_ids item)) batch) in
     padded <- map_opt
                 (fun datum =>
                    i <- pad maximum (IntTensor (Example.input_ids datum)) ;;
                    m <- pad maximum (IntTensor (Example.attention_mask datum)) ;;
                    t <- pad maximum (Example.targets datum) ;;
                    Some (i, m, t))
                 batch ;;
     Some (Batch.Make
             (Tensor2 (map (fun p => map to_int32 (fst (fst p))) padded) maximum)
             (Tensor2 (map (fun p => map to_int32 (snd (fst p))) padded) maximum)
             (Tensor2 (repeat (repeat 0%Z maximum) (length batch)) maximum)
             (Tensor2 (map snd padded) maximum))).
Proof. destruct batch; [intros H; contradiction H; reflexivity | reflexivity]. Qed.

(** C4.  On a batch of [N >= 1] tokenized examples, with [maximum] the
    largest length of the [input_ids]:
    - [collate] returns a batch whose four fields are well-formed tensors of
      shape [(N, maximum)];
    - the rows of [input_ids], [attention_mask] and [targets] are, example
      by example, the values of the example followed by zeros; boolean
      targets are written as the floats 1 and 0;
    - [token_type_ids] is all zeros, whatever the examples hold;
    - [input_ids], [attention_mask] and [token_type_ids] hold integers and
      [targets] holds floats (by their types). *)
Theorem collate_pads_with_zeros (batch : list Example.t) :
  batch <> [] ->
  Forall tokenized_example batch ->
  let N := length batch in
  let maximum := list_max (map (fun item => length (Example.input_ids item)) batch) in
  exists out,
    collate batch = Some out
    /\ Batch.input_ids out
       = Tensor2 (map (fun item => padded_ints maximum (Example.input_ids item)) batch)
                 maximum
    /\ Batch.attention_mask out
       = Tensor2 (map (fun item => padded_ints maximum (Example.attention_mask item)) batch)
                 maximum
    /\ Batch.targets out
       = Tensor2 (map (fun item => padded_floats maximum (Example.targets item)) batch)
                 maximum
    /\ Batch.token_type_ids out = Tensor2 (repeat (repeat 0%Z maximum) N) maximum
    /\ (wf (Batch.input_ids out) /\ batch_size (Batch.input_ids out) = N)
    /\ (wf (Batch.attention_mask out) /\ batch_size (Batch.attention_mask out) = N)
    /\ (wf (Batch.token_type_ids out) /\ batch_size (Batch.token_type_ids out) = N)
    /\ (wf (Batch.targets out) /\ batch_size (Batch.targets out) = N).
Proof.
  intros Hne Hex N maximum. rewrite Forall_forall in Hex.
  assert (Hlen : forall item, In item batch ->
                 length (Example.input_ids item) <= maximum)
    by (intros item Hin;
        apply (length_le_list_max (fun item => length (Example.input_ids item)));
        exact Hin).
  assert (Hpad : map_opt
            (fun datum =>
               i <- pad maximum (IntTensor (Example.input_ids datum)) ;;
               m <- pad maximum (IntTensor (Example.attention_mask datum)) ;;
               t <- pad maximum (Example.targets datum) ;;
               Some (i, m, t)) batch
          = Some (map (fun item =>
                         (padded_floats maximum (IntTensor (Example.input_ids item)),
                          padded_floats maximum (IntTensor (Example.attention_mask item)),
                          padded_floats maximum (Example.targets item))) batch)).
  { apply map_opt_some. intros item Hin.
    destruct (Hex item Hin) as (Em & Et & _ & _). specialize (Hlen item Hin).
    rewrite !pad_fits by (cbn [len]; lia). reflexivity. }
  assert (Hints : forall v, Forall float32_exact v ->
            map to_int32 (padded_floats maximum (IntTensor v)) = padded_ints maximum v).
  { intros v Hv. unfold padded_floats, padded_ints.
    rewrite map_app, (int_round_trip v Hv), map_to_int32_zeros. reflexivity. }
  assert (Hwf : forall {A B} (f : B -> list A) (l : list B),
             (forall x, In x l -> length (f x) = maximum) ->
             wf (Tensor2 (map f l) maximum) /\ batch_size (Tensor2 (map f l) maximum) = length l).
  { intros A B f l Hf. split.
    - apply wf_intro. cbn [rows cols]. intros r Hr. apply in_map_iff in Hr.
      destruct Hr as (x & <- & Hx). apply Hf. exact Hx.
    - unfold batch_size. cbn [rows]. apply length_map. }
  rewrite (collate_nonempty batch Hne). cbv zeta. fold maximum.
  rewrite Hpad. cbn [bind]. eexists. split; [reflexivity|].
  cbn [Batch.input_ids Batch.attention_mask Batch.targets Batch.token_type_ids].
  rewrite !map_map. cbn [fst snd].
  assert (Ei : map (fun x => map to_int32 (padded_floats maximum (IntTensor (Example.input_ids x)))) batch
               = map (fun item => padded_ints maximum (Example.input_ids item)) batch).
  { apply map_ext_in. intros item Hin. apply Hints. apply (Hex item Hin). }
  assert (Em : map (fun x => map to_int32 (padded_floats maximum (IntTensor (Example.attention_mask x)))) batch
               = map (fun item => padded_ints maximum (Example.attention_mask item)) batch).
  { apply map_ext_in. intros item Hin. apply Hints. apply (Hex item Hin). }
  rewrite Ei, Em.
  split; [reflexivity|]. split; [reflexivity|]. split; [reflexivity|].
  split; [reflexivity|].
  split; [|split; [|split]].
  - apply Hwf. intros item Hin. unfold padded_ints.
    rewrite length_app, repeat_length. specialize (Hlen item Hin). lia.
  - apply Hwf. intros item Hin. unfold padded_ints.
    destruct (Hex item Hin) as (Hm & _). specialize (Hlen item Hin).
    rewrite length_app, repeat_length. lia.
  - split.
    + apply wf_intro. cbn [rows cols]. intros r Hr. apply repeat_spec in Hr.
      rewrite Hr. apply repeat_length.
    + unfold batch_size. cbn [rows]. apply repeat_length.
  - apply Hwf. intros item Hin. unfold padded_floats.
    destruct (Hex item Hin) as (_ & Ht & _). specialize (Hlen item Hin).
    rewrite length_app, repeat_length, length_as_float32. lia.
Qed.

(** The theorem on the two examples of [Toy]: lengths 3 and 5, so
    [maximum] is 5 and the first example gets two zeros in each field. *)
Lemma collate_pads_with_zeros_witness :
  collate Toy.examples
  = Some (Batch.Make
            (Tensor2 [[7; 8; 9; 0; 0]; [101; 4; 5; 6; 102]]%Z 5)
            (Tensor2 [[1; 1; 1; 0; 0]; [1; 1; 1; 1; 1]]%Z 5)
            (Tensor2 [[0; 0; 0; 0; 0]; [0; 0; 0; 0; 0]]%Z 5)
            (Tensor2 [[1; 0; 1; 0; 0]; [1; 1; 1; 1; 1]]%Q 5)).
Proof.
  destruct (collate_pads_with_zeros Toy.examples) as (out & E & Hi & Hm & Ht & Hy & _).
  - discriminate.
  - repeat constructor; unfold float32_exact; simpl; lia.
  - rewrite E. destruct out as [i m y t]. simpl in Hi, Hm, Ht, Hy. subst. reflexivity.
Defined.


(** ** The definitions on concrete inputs *)

Example chunk_1000 :
  map (@cols Z) (chunk Toy.long_ids) = [512; 488]
  /\ map (@batch_size Z) (chunk Toy.long_ids) = [2; 2].
Proof. split; vm_compute; reflexivity. Qed.

Example chunk_empty_sequence :
  chunk (Tensor2 [[]; []] 0) = [Tensor2 [[]; []] 0 : tensor2 Z].
Proof. vm_compute. reflexivity. Qed.

Example mean_last5_drops_first_layer :
  @mean_last5 Toy.encoder
    (map (fun j => Tensor2 [[j]] 1) [100; 1; 2; 3; 4; 5]%Z)
  = Some (Tensor2 [[3%Z]] 1).
Proof. vm_compute. reflexivity. Qed.

Example mean_last5_rejects_mixed_shapes :
  @mean_last5 Toy.encoder [Tensor2 [[1%Z]] 1; Tensor2 [[1; 2]%Z] 2] = None.
Proof. reflexivity. Qed.

Example cat1_rejects_mixed_batches :
  cat1 [Tensor2 [[1%Z]] 1; Tensor2 [[1%Z]; [2%Z]] 1] = None.
Proof. reflexivity. Qed.

Example getitem_sentence_level :
  exists dataset,
    @__init__ String.string bool Toy.papers false = Some dataset
    /\ __len__ dataset = 5
    /\ @__getitem__ Toy.tokenizer dataset 1
       = Some (Example.Make [101; 97; 110; 102]%Z [1; 1; 1; 1]%Z [0; 0; 0; 0]%Z
                            (FloatTensor [0; 0; 0; 0]%Q))
    /\ @__getitem__ Toy.tokenizer dataset 5 = None.
Proof. eexists. repeat split; reflexivity. Qed.

Example combine_inputs_two_papers :
  @combine_inputs Toy.tokenizer Toy.papers
  = Some (Example.Make [97; 110; 97; 112; 112; 108; 101]%Z [1; 1; 1; 1; 1; 1; 1]%Z
                       [0; 0; 0; 0; 0; 0; 0]%Z
                       (BoolTensor [false; false; true; true; true; true; true])).
Proof. vm_compute. reflexivity. Qed.

Example combine_inputs_no_rows : @combine_inputs Toy.tokenizer [] = None.
Proof. reflexivity. Qed.

Example loc_repeated_label :
  option_map (map (@text String.string bool)) (loc Toy.repeated_labels [0%Z])
  = option_map (map (@text String.string bool))
               (Some [nth 0 Toy.repeated_labels (MkRow 0 0 String.EmptyString false);
                      nth 2 Toy.repeated_labels (MkRow 0 0 String.EmptyString false)]).
Proof. reflexivity. Qed.

Example loc_unknown_label : loc Toy.papers [40; 99]%Z = None.
Proof. reflexivity. Qed.

Example to_float32_rounds : to_float32 16777217 = 16777216%Z.
Proof. reflexivity. Qed.

Example to_float32_ties_to_even : to_float32 16777219 = 16777220%Z.
Proof. reflexivity. Qed.

Example pad_source_too_long : pad 2 (IntTensor [1; 2; 3]%Z) = None.
Proof. reflexivity. Qed.

Example collate_empty_batch : collate [] = None.
Proof. reflexivity. Qed.

Example reshape_as_keeps_order :
  reshape_as (NdTensor [3; 2] [1; 0; 0; 1; 1; 0]%Q) (NdTensor [1; 3; 2] [])
  = Some (NdTensor [1; 3; 2] [1; 0; 0; 1; 1; 0]%Q).
Proof. reflexivity. Qed.

(** * Further properties of the code *)

(** ** The windows of [chunk] *)

Lemma split_cols_le {A} (w : nat) (t c : tensor2 A) :
  0 < w -> In c (split w t) -> cols c <= w /\ batch_size c = batch_size t.
Proof.
  intros Hw Hin. rewrite split_explicit in Hin by exact Hw.
  apply in_map_iff in Hin. destruct Hin as (i & <- & _). split.
  - cbn [narrow cols]. lia.
  - apply batch_size_narrow.
Qed.

Lemma split_cols_pos {A} (w : nat) (t c : tensor2 A) :
  0 < w -> 0 < cols t -> In c (split w t) -> 0 < cols c.
Proof.
  intros Hw HL Hin. rewrite split_explicit in Hin by exact Hw.
  apply in_map_iff in Hin. destruct Hin as (i & <- & Hi). apply in_seq in Hi.
  destruct (num_splits_bounds (cols t) w Hw) as (H1 & H2 & H3).
  cbn [narrow cols].
  assert (i * w < cols t); [|lia].
  unfold num_splits in *.
  pose proof (Nat.div_mod_eq (cols t + w - 1) w) as E.
  pose proof (Nat.mod_upper_bound (cols t + w - 1) w ltac:(lia)) as B.
  destruct (Nat.max_spec ((cols t + w - 1) / w) 1) as [[Hm Em]|[Hm Em]];
    rewrite Em in *; nia.
Qed.

(** X1.  For every well-formed tensor, [chunk] returns at least one window
    and [max(1, ceil(L / 512))] of them; each window is well formed, keeps
    the batch size, has at most 512 columns and, unless the tensor has no
    column, at least one; concatenating the windows along the token axis
    gives the tensor back. *)
Theorem chunk_covers_tensor {A} (t : tensor2 A) :
  wf t ->
  length (chunk t) = Nat.max ((cols t + 511) / 512) 1
  /\ Forall (fun c => wf c /\ batch_size c = batch_size t /\ cols c <= 512
                      /\ (0 < cols t -> 0 < cols c)) (chunk t)
  /\ cat1 (chunk t) = Some t.
Proof.
  intros Hwf. unfold chunk, window_size. split; [|split].
  - rewrite length_split. unfold num_splits.
    replace (cols t + 512 - 1) with (cols t + 511) by lia. reflexivity.
  - apply Forall_forall. intros c Hc.
    destruct (split_pieces 512 t c ltac:(lia) Hwf Hc) as (H1 & H2 & H3).
    repeat split; try assumption.
    intros HL. apply (split_cols_pos 512 t c); [lia | exact HL | exact Hc].
  - apply cat1_split; [lia | exact Hwf].
Qed.

(** On a batch of two sequences of 1000 tokens: two windows, glued back. *)
Lemma chunk_covers_tensor_witness :
  length (chunk Toy.long_ids) = 2 /\ cat1 (chunk Toy.long_ids) = Some Toy.long_ids.
Proof.
  destruct (chunk_covers_tensor Toy.long_ids) as (Hn & _ & Hcat).
  - vm_compute. reflexivity.
  - split; [rewrite Hn; reflexivity | exact Hcat].
Defined.

(** ** The encoder never sees more than 512 positions *)

Lemma map_opt_ext_in {A B} (f g : A -> option B) (l : list A) :
  (forall x, In x l -> f x = g x) -> map_opt f l = map_opt g l.
Proof.
  induction l as [|a l IH]; intros H; [reflexivity|]. simpl.
  rewrite (H a (or_introl eq_refl)), IH; [reflexivity|].
  intros x Hx. apply H. right. exact Hx.
Qed.

Lemma windows_cols_le (ids mask types : tensor2 Z) (win : tensor2 Z * tensor2 Z * tensor2 Z) :
  In win (windows ids mask types) ->
  cols (fst (fst win)) <= 512 /\ cols (snd (fst win)) <= 512 /\ cols (snd win) <= 512.
Proof.
  destruct win as [[c0 c1] c2]. unfold windows, chunk, window_size. intros Hin.
  pose proof (in_combine_l _ _ _ _ Hin) as H01.
  pose proof (in_combine_r _ _ _ _ Hin) as H2.
  pose proof (in_combine_l _ _ _ _ H01) as H0.
  pose proof (in_combine_r _ _ _ _ H01) as H1.
  cbn [fst snd].
  split; [|split]; eapply split_cols_le; try eassumption; lia.
Qed.

(** X2.  In both modes [get_embedding] consults the encoder only on inputs
    of at most 512 positions: replacing the network by any other one that
    agrees with it on such inputs does not change the result. *)
Theorem get_embedding_calls_within_512 {enc : Encoder}
        (bert' : tensor2 Z -> tensor2 Z -> tensor2 Z -> option (list (tensor2 emb)))
        (enable_chunk : bool) (input_ids attention_mask token_type_ids : tensor2 Z) :
  (forall a b c, cols a <= 512 -> cols b <= 512 -> cols c <= 512 ->
                 bert' a b c = bert a b c) ->
  @get_embedding (with_bert enc bert') enable_chunk input_ids attention_mask token_type_ids
  = @get_embedding enc enable_chunk input_ids attention_mask token_type_ids.
Proof.
  intros Hagree. unfold get_embedding. destruct enable_chunk.
  - rewrite (map_opt_ext_in (@embed_window (with_bert enc bert')) (@embed_window enc));
      [reflexivity|].
    intros [[c0 c1] c2] Hin.
    destruct (windows_cols_le _ _ _ _ Hin) as (H0 & H1 & H2). cbn [fst snd] in *.
    unfold embed_window. cbn [with_bert bert]. rewrite (Hagree c0 c1 c2 H0 H1 H2).
    reflexivity.
  - cbn [with_bert bert].
    rewrite Hagree by (cbn [slice_to cols]; lia). reflexivity.
Qed.

(** On the 1000-token batch the guarded network of [Cases] gives the
    embeddings of the unguarded one, in both modes. *)
Lemma get_embedding_calls_within_512_witness :
  @get_embedding (with_bert Toy.encoder Cases.guarded_bert) true
                 Toy.long_ids Toy.long_mask Toy.long_types
  = @get_embedding Toy.encoder true Toy.long_ids Toy.long_mask Toy.long_types
  /\ @get_embedding (with_bert Toy.encoder Cases.guarded_bert) false
                    Toy.long_ids Toy.long_mask Toy.long_types
     = @get_embedding Toy.encoder false Toy.long_ids Toy.long_mask Toy.long_types.
Proof.
  split; apply (@get_embedding_calls_within_512 Toy.encoder Cases.guarded_bert);
    intros a b c Ha Hb Hc; unfold Cases.guarded_bert;
    apply Nat.leb_le in Ha, Hb, Hc; rewrite Ha, Hb, Hc; reflexivity.
Defined.

(** ** The forward pass *)

Lemma length_concat_const {A} (ls : list (list A)) (n : nat) :
  (forall l, In l ls -> length l = n) -> length (concat ls) = length ls * n.
Proof.
  induction ls as [|l ls IH]; intros H; [reflexivity|].
  cbn [concat length]. rewrite length_app, (H l (or_introl eq_refl)), IH; [lia|].
  intros x Hx. apply H. right. exact Hx.
Qed.

Lemma length_values_of_rows {A} (f : A -> list Q) (t : tensor2 A) (n : nat) :
  wf t -> (forall a, length (f a) = n) ->
  length (concat (map (@concat Q) (map (map f) (rows t)))) = batch_size t * (cols t * n).
Proof.
  intros Hwf Hf. rewrite (length_concat_const _ (cols t * n)).
  - rewrite !length_map. reflexivity.
  - intros l Hl. apply in_map_iff in Hl. destruct Hl as (r0 & <- & Hr0).
    apply in_map_iff in Hr0. destruct Hr0 as (r & <- & Hr).
    rewrite (length_concat_const _ n).
    + rewrite length_map, (wf_row t r Hwf Hr). reflexivity.
    + intros v Hv. apply in_map_iff in Hv. destruct Hv as (a & <- & _). apply Hf.
Qed.

Section ForwardShape.
Context {enc : Encoder} {head : Head enc}.

Lemma get_embedding_shape (enable_chunk : bool) (ids mask types : tensor2 Z) (L : nat) :
  cols ids = L -> cols mask = L -> cols types = L ->
  encoder_contract enable_chunk ids mask types ->
  exists e, get_embedding enable_chunk ids mask types = Some e
            /\ wf e /\ batch_size e = batch_size ids
            /\ cols e = embedded_length enable_chunk L.
Proof.
  intros Ei Em Et Henc. destruct enable_chunk; cbn [encoder_contract embedded_length] in *.
  - destruct (chunked_embedding ids mask types L Ei Em Et Henc)
      as (embs & out & _ & _ & E & Hwf & Hc & Hb).
    exists out. repeat split; assumption.
  - destruct (embed_window_shape _ Henc) as (out & Eout & Hwf & Eb & Ec).
    cbn [fst] in Eb, Ec. unfold embed_window in Eout.
    exists out. split; [exact Eout|]. split; [exact Hwf|]. split.
    + rewrite Eb. unfold batch_size. cbn [slice_to rows]. apply length_map.
    + rewrite Ec. cbn [slice_to cols]. rewrite Ei. reflexivity.
Qed.

Lemma forward_of_embedding (enable_chunk : bool) (ids mask types : tensor2 Z)
      (train : bool) (e : tensor2 emb) :
  get_embedding enable_chunk ids mask types = Some e ->
  forward enable_chunk ids mask types train
  = Some (NdTensor [batch_size e; cols e; n_classes]
            (concat (map (@concat Q)
                         (map (map (fun x => if train then l1 x else softmax (l1 x)))
                              (rows e))))).
Proof.
  intros E. unfold forward. rewrite E. cbn [bind].
  destruct train; [reflexivity|].
  assert (Hsm : map (map softmax) (map (map l1) (rows e))
                = map (map (fun x => softmax (l1 x))) (rows e)).
  { rewrite map_map. apply map_ext. intros r. apply map_map. }
  rewrite Hsm. reflexivity.
Qed.

(** X3.  When the encoder keeps the shape of what it is given and the head
    returns [n_classes] scores, [forward] returns, with or without softmax,
    a tensor of shape (batch, positions, n_classes) holding exactly that
    many values; the positions are all [L] tokens with chunking and the
    first [min(512, L)] without. *)
Theorem forward_shape (enable_chunk train : bool) (ids mask types : tensor2 Z) (L : nat) :
  cols ids = L -> cols mask = L -> cols types = L ->
  encoder_contract enable_chunk ids mask types ->
  head_keeps_classes head ->
  exists out,
    forward enable_chunk ids mask types train = Some out
    /\ shape out = [batch_size ids; embedded_length enable_chunk L; n_classes]
    /\ length (values out) = numel out.
Proof.
  intros Ei Em Et Henc (Hl1 & Hsm).
  destruct (get_embedding_shape enable_chunk ids mask types L Ei Em Et Henc)
    as (e & E & Hwf & Hb & Hc).
  rewrite (forward_of_embedding enable_chunk ids mask types train e E).
  eexists. split; [reflexivity|]. cbn [shape values]. split.
  - rewrite Hb, Hc. reflexivity.
  - rewrite (length_values_of_rows _ e n_classes Hwf).
    + unfold numel. cbn [shape fold_right]. lia.
    + intros a. destruct train; [apply Hl1 | rewrite Hsm; apply Hl1].
Qed.

End ForwardShape.

(** On the 1000-token batch of [Toy]: 2 x 1000 x 2 scores with chunking and
    2 x 512 x 2 without. *)
Lemma forward_shape_witness :
  (exists out, @forward Toy.encoder Toy.head true Toy.long_ids Toy.long_mask
                        Toy.long_types false = Some out
               /\ shape out = [2; 1000; 2] /\ length (values out) = 4000)
  /\ (exists out, @forward Toy.encoder Toy.head false Toy.long_ids Toy.long_mask
                           Toy.long_types false = Some out
                  /\ shape out = [2; 512; 2] /\ length (values out) = 2048).
Proof.
  split.
  - destruct (@forward_shape Toy.encoder Toy.head true false
                Toy.long_ids Toy.long_mask Toy.long_types 1000)
      as (out & E & Hs & Hl);
      [reflexivity | reflexivity | reflexivity | vm_compute; reflexivity
       | split; intros; reflexivity |].
    exists out. split; [exact E|]. split; [exact Hs|].
    rewrite Hl. unfold numel. rewrite Hs. reflexivity.
  - destruct (@forward_shape Toy.encoder Toy.head false false
                Toy.long_ids Toy.long_mask Toy.long_types 1000)
      as (out & E & Hs & Hl);
      [reflexivity | reflexivity | reflexivity | vm_compute; reflexivity
       | split; intros; reflexivity |].
    exists out. split; [exact E|]. split; [exact Hs|].
    rewrite Hl. unfold numel. rewrite Hs. reflexivity.
Defined.

(** ** The steps on whole batches *)

Lemma length_concat_rows {A} (t : tensor2 A) :
  wf t -> length (concat (rows t)) = batch_size t * cols t.
Proof.
  intros Hwf. apply length_concat_const. intros r Hr. apply (wf_row t r Hwf Hr).
Qed.

Lemma expand_targets_none (targets : tensor2 Q) :
  expand_targets targets = None <-> concat (rows targets) = [].
Proof.
  split.
  - intros H. destruct (concat (rows targets)) as [|v l] eqn:E; [reflexivity|].
    rewrite expand_targets_rows in H by (rewrite E; discriminate). discriminate.
  - intros H. unfold expand_targets. rewrite flat_map_rows, H. reflexivity.
Qed.

Lemma expand_targets_numel (targets : tensor2 Q) :
  wf targets -> concat (rows targets) <> [] ->
  exists labels0,
    expand_targets targets = Some labels0
    /\ numel (nd_of_tensor2 labels0) = batch_size targets * cols targets * 2
    /\ values (nd_of_tensor2 labels0)
       = concat (map (fun v => expand_label (to_bool v)) (concat (rows targets))).
Proof.
  intros Hwf Hne. rewrite (expand_targets_rows targets Hne).
  eexists. split; [reflexivity|]. split; [|reflexivity].
  unfold numel, nd_of_tensor2, batch_size. cbn [shape rows cols fold_right].
  rewrite length_map. fold (batch_size targets).
  rewrite (length_concat_rows targets Hwf). lia.
Qed.

Section StepsOnBatches.
Context {enc : Encoder} {head : Head enc}.

Lemma forward_on_batch (enable_chunk train : bool) (batch : Batch.t) (B L : nat) :
  batch_of_shape batch B L ->
  encoder_contract enable_chunk (Batch.input_ids batch) (Batch.attention_mask batch)
                   (Batch.token_type_ids batch) ->
  exists outputs,
    forward enable_chunk (Batch.input_ids batch) (Batch.attention_mask batch)
            (Batch.token_type_ids batch) train = Some outputs
    /\ shape outputs = [B; embedded_length enable_chunk L; n_classes].
Proof.
  intros (Ei & Em & Et & Eb & _) Henc.
  destruct (get_embedding_shape enable_chunk _ _ _ L Ei Em Et Henc)
    as (e & E & _ & Hb & Hc).
  rewrite (forward_of_embedding enable_chunk _ _ _ train e E).
  eexists. split; [reflexivity|]. cbn [shape]. rewrite Hb, Hc, Eb. reflexivity.
Qed.



(** X5.  Without chunking, on a batch of sequences of more than 512 tokens
    with one target per token (two classes, an encoder that keeps shapes),
    the training, validation and test steps all raise: the outputs cover 512
    positions and the labels [L].  Only [predict_step], which has no labels,
    returns, with scores for the first 512 positions. *)
Theorem steps_raise_beyond_512_without_chunking (batch : Batch.t) (B L : nat) :
  batch_of_shape batch B L ->
  512 < L ->
  n_classes = 2 ->
  encoder_contract false (Batch.input_ids batch) (Batch.attention_mask batch)
                   (Batch.token_type_ids batch) ->
  training_step false batch = None
  /\ validation_step false batch = None
  /\ test_step false batch = None
  /\ exists scores, predict_step false batch = Some scores /\ shape scores = [B; 512; 2].
Proof.
  intros Hshape HL Hcls Henc.
  assert (Hf : forall train,
             exists outputs,
               forward false (Batch.input_ids batch) (Batch.attention_mask batch)
                       (Batch.token_type_ids batch) train = Some outputs
               /\ shape outputs = [B; 512; 2]).
  { intros train.
    destruct (forward_on_batch false train batch B L Hshape Henc) as (outputs & Ef & Hs).
    exists outputs. split; [exact Ef|]. rewrite Hs, Hcls. cbn [embedded_length].
    rewrite Nat.min_l by lia. reflexivity. }
  destruct Hshape as (Ei & Em & Et & Eb & Hwf & Ec & Et').
  assert (Hr : forall outputs, shape outputs = [B; 512; 2] ->
               (labels0 <- expand_targets (Batch.targets batch) ;;
                reshape_as (nd_of_tensor2 labels0) outputs) = None).
  { intros outputs Hs.
    destruct (concat (rows (Batch.targets batch))) as [|v rest] eqn:Hc.
    - rewrite (proj2 (expand_targets_none _) Hc). reflexivity.
    - assert (Hne : concat (rows (Batch.targets batch)) <> [])
        by (rewrite Hc; discriminate).
      destruct (expand_targets_numel _ Hwf Hne) as (labels0 & El & Hn & _).
      rewrite El. cbn [bind]. apply reshape_as_mismatch.
      rewrite Hn, Ec, Et'. unfold numel. rewrite Hs. cbn [fold_right].
      assert (0 < B * L).
      { apply (f_equal (@length Q)) in Hc.
        rewrite (length_concat_rows _ Hwf), Ec, Et' in Hc. simpl in Hc. lia. }
      nia. }
  destruct (Hf true) as (logits & Eft & Hst).
  destruct (Hf false) as (probs & Eff & Hsf).
  pose proof (Hr logits Hst) as Hrt. pose proof (Hr probs Hsf) as Hrf.
  unfold training_step, validation_step, test_step, predict_step.
  rewrite Eft, Eff. cbn [bind].
  destruct (expand_targets (Batch.targets batch)) as [labels0|]; cbn [bind] in *.
  - rewrite Hrt, Hrf. cbn [bind]. repeat split. exists probs. split; [reflexivity | exact Hsf].
  - repeat split. exists probs. split; [reflexivity | exact Hsf].
Qed.

(** X6.  [expand_targets] raises exactly on targets without any element, and
    then the training, validation and test steps raise in either mode,
    whatever the forward pass returns. *)
Theorem steps_raise_without_targets (enable_chunk : bool) (batch : Batch.t) :
  (expand_targets (Batch.targets batch) = None
   <-> concat (rows (Batch.targets batch)) = [])
  /\ (concat (rows (Batch.targets batch)) = [] ->
      training_step enable_chunk batch = None
      /\ validation_step enable_chunk batch = None
      /\ test_step enable_chunk batch = None).
Proof.
  split; [apply expand_targets_none|].
  intros H. apply expand_targets_none in H.
  unfold training_step, validation_step, test_step. rewrite H.
  split; [|split];
    match goal with |- bind ?m _ = None => destruct m; reflexivity end.
Qed.

End StepsOnBatches.


(** On the 1000-token batch of [Cases] without chunking. *)
Lemma steps_raise_beyond_512_without_chunking_witness :
  @training_step Toy.encoder Toy.head false Cases.long_batch = None
  /\ @validation_step Toy.encoder Toy.head false Cases.long_batch = None
  /\ @test_step Toy.encoder Toy.head false Cases.long_batch = None
  /\ exists scores, @predict_step Toy.encoder Toy.head false Cases.long_batch = Some scores
                    /\ shape scores = [2; 512; 2].
Proof.
  apply (@steps_raise_beyond_512_without_chunking Toy.encoder Toy.head
           Cases.long_batch 2 1000).
  - repeat split.
  - lia.
  - reflexivity.
  - vm_compute. reflexivity.
Defined.

(** ** Items of the dataset *)

Lemma group_keys_nonempty {R} (key : R -> Z) (df : list R) :
  df <> [] -> group_keys key df <> [].
Proof.
  destruct df as [|r df]; [intros H; contradiction H; reflexivity|]. intros _ E.
  assert (Hin : In (key r) (group_keys key (r :: df))).
  { apply group_keys_In. exists r. split; [left|]; reflexivity. }
  rewrite E in Hin. contradiction.
Qed.

Lemma sorted_head_least (k : Z) (ks : list Z) :
  StronglySorted Z.lt (k :: ks) -> forall x, In x (k :: ks) -> (k <= x)%Z.
Proof.
  intros H x Hx. inversion H as [|? ? _ Hall]; subst.
  destruct Hx as [<-|Hx]; [lia|].
  rewrite Forall_forall in Hall. specialize (Hall x Hx). lia.
Qed.

Lemma loc_present {T L} (df : list (Row T L)) (labels : list Z) :
  (forall l, In l labels -> exists r, In r df /\ label r = l) ->
  exists picked, loc df labels = Some picked /\ (labels <> [] -> picked <> []).
Proof.
  intros Hall. unfold loc.
  assert (H : exists groups,
             map_opt (fun l => match filter (fun r => (label r =? l)%Z) df with
                               | [] => None
                               | m => Some m
                               end) labels = Some groups
             /\ length groups = length labels
             /\ Forall (fun g => g <> []) groups).
  { induction labels as [|l labels IH].
    - exists []. repeat split. constructor.
    - destruct IH as (groups & E & Hl & Hg);
        [intros x Hx; apply Hall; right; exact Hx|].
      destruct (Hall l (or_introl eq_refl)) as (r & Hr & El).
      destruct (filter (fun r => (label r =? l)%Z) df) as [|m0 m] eqn:Ef.
      + exfalso.
        assert (Hin : In r (filter (fun r => (label r =? l)%Z) df))
          by (apply filter_In; split; [exact Hr | apply Z.eqb_eq; exact El]).
        rewrite Ef in Hin. contradiction.
      + exists ((m0 :: m) :: groups). cbn [map_opt]. rewrite Ef. cbn [bind].
        rewrite E. cbn [bind]. split; [reflexivity|]. split; [simpl; lia|].
        constructor; [discriminate | exact Hg]. }
  destruct H as (groups & E & Hl & Hg). rewrite E. cbn [bind].
  eexists. split; [reflexivity|].
  intros Hne. destruct labels as [|l labels]; [contradiction Hne; reflexivity|].
  destruct groups as [|g groups]; [discriminate|].
  inversion Hg as [|? ? Hg0 _]; subst. cbn [concat].
  destruct g; [contradiction Hg0; reflexivity | discriminate].
Qed.

Section Items.
Context {tok : Tokenizer}.

Lemma combine_inputs_some (df : list (Row String.string bool)) :
  df <> [] -> exists item, combine_inputs df = Some item.
Proof.
  intros Hne. rewrite combine_inputs_first_group. unfold groupby.
  pose proof (group_keys_nonempty (@paper_id String.string bool) df Hne) as Hk.
  destruct (group_keys (@paper_id String.string bool) df); [contradiction Hk; reflexivity|].
  eexists. reflexivity.
Qed.

Lemma combine_inputs_inv (df : list (Row String.string bool)) (item : Example.t) :
  combine_inputs df = Some item -> exists rows_, item = paper_example rows_.
Proof.
  rewrite combine_inputs_first_group.
  destruct (groupby (@paper_id String.string bool) df) as [|g rest]; [discriminate|].
  intros H. injection H as <-. eexists. reflexivity.
Qed.

Lemma paper_example_aligned (rows_ : list (Row String.string bool)) :
  len (Example.targets (paper_example rows_))
  = length (Example.input_ids (paper_example rows_)).
Proof.
  cbn [paper_example Example.targets Example.input_ids len].
  rewrite !length_concat_sum, !map_map. f_equal. apply map_ext. intros r.
  unfold sentence_targets. apply repeat_length.
Qed.

Lemma getitem_below_len (table : list (Row String.string bool))
      (paper_level : bool) (dataset : SuMM_with_tokenizer String.string bool)
      (index : nat) :
  __init__ table paper_level = Some dataset ->
  index < __len__ dataset ->
  exists item, __getitem__ dataset index = Some item.
Proof.
  intros Hinit Hlt. destruct paper_level.
  - rewrite (len_paper_level table dataset Hinit) in Hlt.
    injection Hinit as <-. unfold __getitem__. cbn [process_paper_level papers_dict data].
    unfold groupby. rewrite map_map. cbn [snd]. rewrite nth_error_map.
    destruct (nth_error (group_keys (@paper_id String.string bool) table) index)
      as [k|] eqn:Hk; [|apply nth_error_None in Hk; lia].
    cbn [option_map bind].
    pose proof (group_nonempty (@paper_id String.string bool) table k
                  (nth_error_In _ _ Hk)) as Hne.
    destruct (loc_present table
                (map (@label String.string bool)
                     (filter (fun r => (paper_id r =? k)%Z) table)))
      as (picked & Eloc & Hpicked).
    { intros l Hl. apply in_map_iff in Hl. destruct Hl as (r & El & Hr).
      apply filter_In in Hr. exists r. split; [apply Hr | exact El]. }
    rewrite Eloc. cbn [bind]. apply combine_inputs_some.
    apply Hpicked. intros E. apply map_eq_nil in E. contradiction.
  - injection Hinit as <-. unfold __getitem__, __len__ in *.
    cbn [process_paper_level data] in *.
    destruct (nth_error table index) as [datum|] eqn:Hd;
      [|apply nth_error_None in Hd; lia].
    cbn [bind]. eexists. reflexivity.
Qed.

(** X7.  On a dataset built by [__init__], in either mode and whether or not
    row labels repeat, [__getitem__] returns an item exactly for the indices
    below [__len__] and raises for the others. *)
Theorem getitem_defined_below_len (table : list (Row String.string bool))
        (paper_level : bool) (dataset : SuMM_with_tokenizer String.string bool)
        (index : nat) :
  __init__ table paper_level = Some dataset ->
  (__getitem__ dataset index <> None <-> index < __len__ dataset).
Proof.
  intros Hinit. split.
  - intros Hsome. destruct (Nat.lt_ge_cases index (__len__ dataset)) as [H|H];
      [exact H|].
    exfalso. apply Hsome. destruct paper_level.
    + rewrite (len_paper_level table dataset Hinit) in H.
      injection Hinit as <-. unfold __getitem__. cbn [process_paper_level papers_dict].
      assert (Hn : nth_error (map (fun g => map (@label String.string bool) (snd g))
                                  (groupby (@paper_id String.string bool) table)) index
                   = None).
      { apply nth_error_None. unfold groupby. rewrite !length_map. exact H. }
      rewrite Hn. reflexivity.
    + injection Hinit as <-. unfold __getitem__, __len__ in *.
      cbn [process_paper_level data] in *.
      apply nth_error_None in H. rewrite H. reflexivity.
  - intros Hlt. destruct (getitem_below_len table paper_level dataset index Hinit Hlt)
      as (item & E).
    rewrite E. discriminate.
Qed.

(** The item of a record in sentence mode. *)
Lemma getitem_cases (dataset : SuMM_with_tokenizer String.string bool)
      (index : nat) (item : Example.t) :
  __getitem__ dataset index = Some item ->
  (exists rows_, item = paper_example rows_)
  \/ (exists datum,
         item = Example.Make
                  (Encoding.input_ids (tokenize (text datum) true))
                  (Encoding.attention_mask (tokenize (text datum) true))
                  (Encoding.token_type_ids (tokenize (text datum) true))
                  (FloatTensor
                     (repeat (of_label (in_summary datum))
                             (length (Encoding.input_ids (tokenize (text datum) true)))))).
Proof.
  unfold __getitem__. destruct (process_paper_level dataset).
  - destruct (nth_error (papers_dict dataset) index) as [labels|]; [|discriminate].
    cbn [bind]. destruct (loc (data dataset) labels) as [paper|]; [|discriminate].
    cbn [bind]. intros H. left. apply (combine_inputs_inv paper item H).
  - destruct (nth_error (data dataset) index) as [datum|]; [|discriminate].
    cbn [bind]. intros H. injection H as <-. right. exists datum.
    destruct (in_summary datum); reflexivity.
Qed.

(** X8.  Every item [__getitem__] returns, in either mode and for any
    tokenizer, has exactly one target per token identifier. *)
Theorem getitem_targets_aligned (dataset : SuMM_with_tokenizer String.string bool)
        (index : nat) (item : Example.t) :
  __getitem__ dataset index = Some item ->
  len (Example.targets item) = length (Example.input_ids item).
Proof.
  intros H. destruct (getitem_cases dataset index item H) as [(rows_ & ->)|(datum & ->)].
  - apply paper_example_aligned.
  - cbn [Example.targets Example.input_ids len]. apply repeat_length.
Qed.

(** X9.  [combine_inputs] raises exactly on a frame without rows.  On any
    other frame it returns the example of the rows whose [paper_id] is the
    smallest of the frame, in their order in the frame, and leaves the rows
    of the other papers out. *)
Theorem combine_inputs_smallest_paper (df : list (Row String.string bool)) :
  (combine_inputs df = None <-> df = [])
  /\ (df <> [] ->
      exists k,
        In k (map (@paper_id String.string bool) df)
        /\ (forall r, In r df -> (k <= paper_id r)%Z)
        /\ combine_inputs df = Some (paper_example (paper_rows df k))).
Proof.
  assert (Hsome : df <> [] ->
            exists k,
              In k (map (@paper_id String.string bool) df)
              /\ (forall r, In r df -> (k <= paper_id r)%Z)
              /\ combine_inputs df = Some (paper_example (paper_rows df k))).
  { intros Hne. rewrite combine_inputs_first_group. unfold groupby.
    pose proof (group_keys_nonempty (@paper_id String.string bool) df Hne) as Hk.
    pose proof (group_keys_sorted (@paper_id String.string bool) df) as Hs.
    pose proof (group_keys_In (@paper_id String.string bool) df) as Hin.
    destruct (group_keys (@paper_id String.string bool) df) as [|k ks];
      [contradiction Hk; reflexivity|].
    exists k. split; [|split].
    - destruct (proj1 (Hin k) (or_introl eq_refl)) as (r & Hr & E).
      apply in_map_iff. exists r. split; assumption.
    - intros r Hr. apply (sorted_head_least k ks Hs).
      apply Hin. exists r. split; [exact Hr | reflexivity].
    - reflexivity. }
  split; [|exact Hsome]. split.
  - intros H. destruct df as [|r df]; [reflexivity|].
    destruct Hsome as (k & _ & _ & E); [discriminate|]. rewrite E in H. discriminate.
  - intros ->. reflexivity.
Qed.

End Items.

(** On the table [Toy.papers] in sentence mode: five items. *)
Lemma getitem_defined_below_len_witness :
  (@__getitem__ Toy.tokenizer (MkDataset Toy.papers false [[12; 13]; [40; 41; 45]]%Z) 4
   <> None)
  /\ ~ (@__getitem__ Toy.tokenizer (MkDataset Toy.papers false [[12; 13]; [40; 41; 45]]%Z) 5
        <> None).
Proof.
  split.
  - apply (@getitem_defined_below_len Toy.tokenizer Toy.papers false
             (MkDataset Toy.papers false [[12; 13]; [40; 41; 45]]%Z) 4 eq_refl).
    vm_compute. lia.
  - intros H.
    apply (@getitem_defined_below_len Toy.tokenizer Toy.papers false
             (MkDataset Toy.papers false [[12; 13]; [40; 41; 45]]%Z) 5 eq_refl) in H.
    vm_compute in H. lia.
Defined.

(** On the second paper of [Toy.papers]: fifteen tokens, fifteen targets. *)
Lemma getitem_targets_aligned_witness :
  exists item,
    @__getitem__ Toy.tokenizer (MkDataset Toy.papers true [[12; 13]; [40; 41; 45]]%Z) 1
    = Some item
    /\ len (Example.targets item) = length (Example.input_ids item)
    /\ length (Example.input_ids item) = 15.
Proof.
  destruct (@__getitem__ Toy.tokenizer
              (MkDataset Toy.papers true [[12; 13]; [40; 41; 45]]%Z) 1)
    as [item|] eqn:E; [|vm_compute in E; discriminate E].
  exists item. split; [reflexivity|]. split.
  - apply (@getitem_targets_aligned Toy.tokenizer _ 1 item E).
  - vm_compute in E. injection E as <-. reflexivity.
Defined.

Section ItemsCover.
Context {tok : Tokenizer}.

(** X10.  In paper-level mode on a table with distinct row labels, the
    items of the dataset are the examples of groups of rows that, put
    together, are the rows of the table, each once: no sentence is left out
    of the items and none is in two of them. *)
Theorem paper_items_cover_table (table : list (Row String.string bool))
        (dataset : SuMM_with_tokenizer String.string bool) :
  index_is_unique table ->
  __init__ table true = Some dataset ->
  exists papers,
    length papers = __len__ dataset
    /\ (forall index rows_,
           nth_error papers index = Some rows_ ->
           __getitem__ dataset index = Some (paper_example rows_))
    /\ Permutation (concat papers) table.
Proof.
  intros Hnd Hinit. unfold index_is_unique in Hnd.
  exists (map (paper_rows table) (group_keys (@paper_id String.string bool) table)).
  split; [|split].
  - rewrite length_map. symmetry. apply (len_paper_level table dataset Hinit).
  - intros index rows_ Hn. rewrite nth_error_map in Hn.
    destruct (nth_error (group_keys (@paper_id String.string bool) table) index)
      as [k|] eqn:Hk; [|discriminate].
    cbn [option_map] in Hn. injection Hn as <-.
    apply (getitem_paper table dataset index k Hnd Hinit Hk).
  - pose proof (groupby_partition (@paper_id String.string bool) table) as Hp.
    unfold groupby in Hp. rewrite map_map in Hp. exact Hp.
Qed.

End ItemsCover.

(** On the table [Toy.papers]: two items that share out its five rows. *)
Lemma paper_items_cover_table_witness :
  exists papers,
    length papers = 2
    /\ (forall index rows_,
           nth_error papers index = Some rows_ ->
           @__getitem__ Toy.tokenizer
             (MkDataset Toy.papers true [[12; 13]; [40; 41; 45]]%Z) index
           = Some (@paper_example Toy.tokenizer rows_))
    /\ Permutation (concat papers) Toy.papers.
Proof.
  assert (Hu : index_is_unique Toy.papers).
  { unfold index_is_unique. simpl.
    repeat (constructor;
            [simpl; intros H; repeat (destruct H as [H|H]; [discriminate H|]); exact H|]).
    constructor. }
  destruct (@paper_items_cover_table Toy.tokenizer Toy.papers
              (MkDataset Toy.papers true [[12; 13]; [40; 41; 45]]%Z) Hu eq_refl)
    as (papers & Hlen & Hitems & Hperm).
  exists papers. split; [rewrite Hlen; reflexivity|]. split; assumption.
Defined.

(** ** When [collate] raises, and the shape of what it returns *)

Lemma pad_some_iff (maximum : nat) (t : tensor1) :
  pad maximum t <> None <-> fits_buffer maximum (len t) = true.
Proof.
  unfold pad, fits_buffer.
  destruct (Nat.leb_spec (len t) maximum) as [Hle|Hgt].
  - rewrite (Nat.min_l _ _ Hle), Nat.eqb_refl. cbn [orb]. split; [reflexivity | discriminate].
  - rewrite Nat.min_r by lia.
    destruct (Nat.eqb_spec (len t) maximum) as [E|_]; [lia|]. cbn [orb].
    destruct (len t =? 1); split; try reflexivity; try discriminate.
    intros H. contradiction H. reflexivity.
Qed.

Lemma pad_length (maximum : nat) (t : tensor1) (v : list Q) :
  pad maximum t = Some v -> length v = maximum.
Proof.
  unfold pad.
  destruct (Nat.eqb_spec (len t) (Nat.min (len t) maximum)) as [E|_].
  - intros H. injection H as <-.
    rewrite length_app, length_as_float32, length_skipn, repeat_length. lia.
  - destruct (len t =? 1); [|discriminate].
    intros H. injection H as <-. apply repeat_length.
Qed.

Lemma map_opt_none_iff {A B} (f : A -> option B) (l : list A) :
  map_opt f l = None <-> Exists (fun a => f a = None) l.
Proof.
  induction l as [|a l IH]; cbn [map_opt].
  - split; [discriminate | intros H; inversion H].
  - destruct (f a) as [b|] eqn:E; cbn [bind].
    + destruct (map_opt f l) as [bs|]; cbn [bind].
      * split; [discriminate|]. intros H. inversion H as [? ? Ha|? ? Hl]; subst.
        -- congruence.
        -- apply IH in Hl. discriminate.
      * split; [|reflexivity]. intros _. apply Exists_cons_tl. apply IH. reflexivity.
    + split; [|reflexivity]. intros _. apply Exists_cons_hd. exact E.
Qed.

Lemma map_opt_Forall2 {A B} (f : A -> option B) (l : list A) (bs : list B) :
  map_opt f l = Some bs -> Forall2 (fun a b => f a = Some b) l bs.
Proof.
  revert bs. induction l as [|a l IH]; intros bs; cbn [map_opt].
  - intros H. injection H as <-. constructor.
  - destruct (f a) as [b|] eqn:E; [|discriminate]. cbn [bind].
    destruct (map_opt f l) as [bs'|]; [|discriminate]. cbn [bind].
    intros H. injection H as <-. constructor; [exact E | apply IH; reflexivity].
Qed.

Lemma pad_ids_fit (batch : list Example.t) (item : Example.t) :
  In item batch ->
  pad (longest batch) (IntTensor (Example.input_ids item))
  = Some (padded_floats (longest batch) (IntTensor (Example.input_ids item))).
Proof.
  intros Hin. apply pad_fits. cbn [len].
  apply (length_le_list_max (fun item => length (Example.input_ids item))). exact Hin.
Qed.

(** X11.  [collate] raises exactly when the batch is empty or holds an
    example whose attention mask or targets cannot be written into a buffer
    as long as the longest [input_ids] of the batch: a source longer than
    that buffer, unless it has a single element.  The [token_type_ids] of
    the examples play no part. *)
Theorem collate_raises_exactly (batch : list Example.t) :
  collate batch = None
  <-> batch = []
      \/ Exists (fun item =>
                   fits_buffer (longest batch) (length (Example.attention_mask item)) = false
                   \/ fits_buffer (longest batch) (len (Example.targets item)) = false)
                batch.
Proof.
  destruct batch as [|item0 rest] eqn:Eb.
  - split; [left; reflexivity | reflexivity].
  - rewrite <- Eb.
    assert (Hne : batch <> []) by (rewrite Eb; discriminate).
    rewrite (collate_nonempty batch Hne). cbv zeta. fold (longest batch).
    set (f := fun datum : Example.t =>
                i <- pad (longest batch) (IntTensor (Example.input_ids datum)) ;;
                m <- pad (longest batch) (IntTensor (Example.attention_mask datum)) ;;
                t <- pad (longest batch) (Example.targets datum) ;;
                Some (i, m, t)).
    assert (Hf : forall item, In item batch ->
              (f item = None
               <-> fits_buffer (longest batch) (length (Example.attention_mask item)) = false
                   \/ fits_buffer (longest batch) (len (Example.targets item)) = false)).
    { intros item Hin. unfold f. rewrite (pad_ids_fit batch item Hin). cbn [bind].
      pose proof (pad_some_iff (longest batch) (IntTensor (Example.attention_mask item)))
        as Hm.
      pose proof (pad_some_iff (longest batch) (Example.targets item)) as Ht.
      cbn [len] in Hm.
      destruct (pad (longest batch) (IntTensor (Example.attention_mask item))) as [m|];
        destruct (pad (longest batch) (Example.targets item)) as [t|]; cbn [bind];
        destruct (fits_buffer (longest batch) (length (Example.attention_mask item)));
        destruct (fits_buffer (longest batch) (len (Example.targets item)));
        split; intros H; try reflexivity; try discriminate;
        try (destruct H as [H|H]; discriminate);
        try (left; reflexivity); try (right; reflexivity);
        exfalso;
        try (assert (Hx : false = true) by (apply Hm; discriminate); discriminate Hx);
        try (assert (Hx : false = true) by (apply Ht; discriminate); discriminate Hx);
        try (apply (proj2 Hm); reflexivity);
        try (apply (proj2 Ht); reflexivity). }
    split.
    + intros H. right.
      destruct (map_opt f batch) as [padded|] eqn:Ep; [discriminate|].
      apply map_opt_none_iff in Ep. apply Exists_exists in Ep.
      destruct Ep as (item & Hin & Hnone). apply Exists_exists.
      exists item. split; [exact Hin | apply (Hf item Hin); exact Hnone].
    + intros [H|H]; [contradiction|].
      apply Exists_exists in H. destruct H as (item & Hin & Hbad).
      assert (Ep : map_opt f batch = None).
      { apply map_opt_none_iff. apply Exists_exists. exists item.
        split; [exact Hin | apply (Hf item Hin); exact Hbad]. }
      rewrite Ep. reflexivity.
Qed.

(** X12.  Whenever [collate] returns, the batch holds at least one example
    and the four tensors returned are well formed, with one row per example
    and as many columns as the longest [input_ids] of the batch. *)
Theorem collate_output_shape (batch : list Example.t) (out : Batch.t) :
  collate batch = Some out ->
  0 < length batch
  /\ batch_of_shape out (length batch) (longest batch)
  /\ wf (Batch.input_ids out) /\ wf (Batch.attention_mask out)
  /\ wf (Batch.token_type_ids out)
  /\ batch_size (Batch.attention_mask out) = length batch
  /\ batch_size (Batch.token_type_ids out) = length batch.
Proof.
  intros H.
  assert (Hne : batch <> []) by (intros ->; discriminate H).
  rewrite (collate_nonempty batch Hne) in H. cbv zeta in H. fold (longest batch) in H.
  match type of H with
  | bind (map_opt ?f batch) _ = _ =>
      destruct (map_opt f batch) as [padded|] eqn:Ep; [|discriminate H];
      apply map_opt_Forall2 in Ep
  end.
  cbn [bind] in H. injection H as <-.
  assert (Hlen : length padded = length batch)
    by (symmetry; apply (Forall2_length Ep)).
  assert (Hrows : forall p, In p padded ->
            length (fst (fst p)) = longest batch
            /\ length (snd (fst p)) = longest batch
            /\ length (snd p) = longest batch).
  { intros p Hp. destruct (Forall2_In_right _ _ _ p Ep Hp) as (item & _ & Hf).
    destruct (pad (longest batch) (IntTensor (Example.input_ids item))) as [i|] eqn:Ei;
      [|discriminate]. cbn [bind] in Hf.
    destruct (pad (longest batch) (IntTensor (Example.attention_mask item))) as [m|] eqn:Em;
      [|discriminate]. cbn [bind] in Hf.
    destruct (pad (longest batch) (Example.targets item)) as [t|] eqn:Et;
      [|discriminate]. cbn [bind] in Hf. injection Hf as <-. cbn [fst snd].
    split; [|split]; eapply pad_length; eassumption. }
  unfold batch_of_shape, batch_size.
  cbn [Batch.input_ids Batch.attention_mask Batch.token_type_ids Batch.targets rows cols].
  rewrite !length_map, repeat_length, Hlen.
  split; [destruct batch; [contradiction Hne; reflexivity | simpl; lia]|].
  repeat split.
  - apply wf_intro. cbn [rows cols]. intros r Hr. apply in_map_iff in Hr.
    destruct Hr as (p & <- & Hp). apply (Hrows p Hp).
  - apply wf_intro. cbn [rows cols]. intros r Hr. apply in_map_iff in Hr.
    destruct Hr as (p & <- & Hp). rewrite length_map. apply (Hrows p Hp).
  - apply wf_intro. cbn [rows cols]. intros r Hr. apply in_map_iff in Hr.
    destruct Hr as (p & <- & Hp). rewrite length_map. apply (Hrows p Hp).
  - apply wf_intro. cbn [rows cols]. intros r Hr. apply repeat_spec in Hr.
    rewrite Hr. apply repeat_length.
Qed.

(** On the two examples of [Toy]: two rows, five columns. *)
Lemma collate_output_shape_witness :
  exists out, collate Toy.examples = Some out /\ batch_of_shape out 2 5.
Proof.
  destruct (collate Toy.examples) as [out|] eqn:E; [|vm_compute in E; discriminate E].
  exists out. split; [reflexivity|].
  apply (collate_output_shape Toy.examples out E).
Defined.

(** ** Padding read as a label *)

Lemma collate_fitting (batch : list Example.t) :
  batch <> [] ->
  Forall (fun item => length (Example.attention_mask item) <= longest batch
                      /\ len (Example.targets item) <= longest batch) batch ->
  collate batch
  = Some (Batch.Make
            (Tensor2 (map (fun item => map to_int32
                                         (padded_floats (longest batch)
                                            (IntTensor (Example.input_ids item))))
                          batch) (longest batch))
            (Tensor2 (map (fun item => map to_int32
                                         (padded_floats (longest batch)
                                            (IntTensor (Example.attention_mask item))))
                          batch) (longest batch))
            (Tensor2 (repeat (repeat 0%Z (longest batch)) (length batch)) (longest batch))
            (Tensor2 (map (fun item => padded_floats (longest batch) (Example.targets item))
                          batch) (longest batch))).
Proof.
  intros Hne Hfit. rewrite Forall_forall in Hfit.
  rewrite (collate_nonempty batch Hne). cbv zeta. fold (longest batch).
  rewrite (map_opt_some _
             (fun item =>
                (padded_floats (longest batch) (IntTensor (Example.input_ids item)),
                 padded_floats (longest batch) (IntTensor (Example.attention_mask item)),
                 padded_floats (longest batch) (Example.targets item)))).
  - cbn [bind]. rewrite !map_map. reflexivity.
  - intros item Hin. destruct (Hfit item Hin) as (Hm & Ht).
    rewrite (pad_ids_fit batch item Hin). cbn [bind].
    rewrite !pad_fits by (cbn [len]; assumption). reflexivity.
Qed.

(** X13.  After [collate] and [expand_targets], every padded position
    carries the pair [[0, 1]], the pair of a token that is not in the
    summary: for each example in turn, the expanded labels are the pairs of
    its own targets followed by one pair [[0, 1]] per padded position. *)
Theorem padding_expands_to_negative_class (batch : list Example.t) :
  batch <> [] ->
  0 < longest batch ->
  Forall (fun item => length (Example.attention_mask item) <= longest batch
                      /\ len (Example.targets item) <= longest batch) batch ->
  exists out,
    collate batch = Some out
    /\ expand_targets (Batch.targets out)
       = Some (Tensor2
                 (flat_map
                    (fun item =>
                       map (fun v => expand_label (to_bool v))
                           (as_float32 (Example.targets item))
                       ++ repeat [0%Q; 1%Q] (longest batch - len (Example.targets item)))
                    batch)
                 2).
Proof.
  intros Hne Hpos Hfit. rewrite (collate_fitting batch Hne Hfit).
  eexists. split; [reflexivity|]. cbn [Batch.targets].
  assert (Hrows : concat (map (fun item => padded_floats (longest batch)
                                             (Example.targets item)) batch) <> []).
  { destruct batch as [|item rest]; [contradiction Hne; reflexivity|].
    intros E. apply (f_equal (@length Q)) in E.
    cbn [map concat] in E. rewrite length_app in E. unfold padded_floats at 1 in E.
    rewrite length_app, repeat_length, length_as_float32 in E.
    inversion Hfit as [|? ? (_ & Ht) _]; subst. simpl in E. lia. }
  rewrite expand_targets_rows by exact Hrows. cbn [rows]. f_equal. f_equal.
  rewrite <- flat_map_concat_map.
  clear Hrows Hfit Hne Hpos. generalize (longest batch) as maximum. intros maximum.
  induction batch as [|item rest IH]; [reflexivity|].
  cbn [flat_map]. rewrite map_app, IH. f_equal.
  unfold padded_floats. rewrite map_app. f_equal.
  induction (maximum - len (Example.targets item)) as [|n IHn]; [reflexivity|].
  cbn [repeat map]. rewrite IHn. reflexivity.
Qed.

(** On the two examples of [Toy]: the first has three targets and two
    padded positions. *)
Lemma padding_expands_to_negative_class_witness :
  exists out,
    collate Toy.examples = Some out
    /\ expand_targets (Batch.targets out)
       = Some (Tensor2 [[1; 0]; [0; 1]; [1; 0]; [0; 1]; [0; 1];
                        [1; 0]; [1; 0]; [1; 0]; [1; 0]; [1; 0]]%Q 2).
Proof.
  apply (padding_expands_to_negative_class Toy.examples).
  - discriminate.
  - vm_compute. lia.
  - repeat constructor.
Defined.

(** ** Subsampling the training records *)

Lemma length_filter_Permutation {A} (p : A -> bool) (l l' : list A) :
  Permutation l l' -> length (filter p l) = length (filter p l').
Proof.
  induction 1 as [|x l l' _ IH|x y l|l l' l'' _ IH1 _ IH2]; cbn [filter].
  - reflexivity.
  - destruct (p x); cbn [length]; rewrite IH; reflexivity.
  - destruct (p x), (p y); reflexivity.
  - rewrite IH1. exact IH2.
Qed.

Lemma sampled_index_unique {T L} (table sampled rest : list (Row T L)) :
  Permutation table (sampled ++ rest) ->
  index_is_unique table -> index_is_unique sampled.
Proof.
  unfold index_is_unique. intros Hp Hnd.
  apply (Permutation_map (@label T L)) in Hp. rewrite map_app in Hp.
  apply (Permutation_NoDup Hp) in Hnd. apply NoDup_app_remove_r in Hnd. exact Hnd.
Qed.

Section Subsample.
Context {tok : Tokenizer} {smp : Sampler}.

(** X14.  When [setup] is given a [train_size], in paper-level mode and on
    training records with distinct row labels (the sample drawing rows
    without replacement): the training dataset holds [train_size] records,
    the validation and test datasets hold all of theirs, and every training
    item is built from a non-empty group of sampled records that all belong
    to one paper of the training data; the group can miss sentences of that
    paper but never has more than the paper has. *)
Theorem setup_subsample_keeps_papers_apart
        (self : SummDataModule.t String.string bool)
        (ds : Datasets String.string bool) (n : nat) :
  draws_without_replacement smp ->
  SummDataModule.train_size self = Some n ->
  SummDataModule.process_paper_level self = true ->
  index_is_unique (SummDataModule.trainData self) ->
  setup self = Some ds ->
  train_len ds = n
  /\ val_len ds = length (SummDataModule.valData self)
  /\ test_len ds = length (SummDataModule.testData self)
  /\ (forall index,
         index < __len__ (train_dataset ds) ->
         exists k rows_,
           __getitem__ (train_dataset ds) index = Some (paper_example rows_)
           /\ rows_ <> []
           /\ (forall r, In r rows_ ->
                         In r (SummDataModule.trainData self) /\ paper_id r = k)
           /\ length rows_ <= length (paper_rows (SummDataModule.trainData self) k)).
Proof.
  intros Hdraw Hsize Hmode Hu Hsetup. unfold setup in Hsetup.
  rewrite Hsize, Hmode in Hsetup.
  destruct (sample (SummDataModule.trainData self) n) as [sampled|] eqn:Es;
    [|discriminate]. cbn [bind] in Hsetup.
  injection Hsetup as <-. unfold train_len, val_len, test_len.
  cbn [train_dataset val_dataset test_dataset data].
  destruct (Hdraw _ _ _ _ _ Es) as (Hlen & rest & Hperm).
  split; [exact Hlen|]. split; [reflexivity|]. split; [reflexivity|].
  intros index Hindex.
  pose proof (sampled_index_unique _ _ _ Hperm Hu) as Hus.
  set (dataset := MkDataset sampled true
                    (map (fun g => map (@label String.string bool) (snd g))
                         (groupby (@paper_id String.string bool) sampled))) in *.
  assert (Hinit : __init__ sampled true = Some dataset) by reflexivity.
  rewrite (len_paper_level sampled dataset Hinit) in Hindex.
  destruct (nth_error (group_keys (@paper_id String.string bool) sampled) index)
    as [k|] eqn:Hk; [|apply nth_error_None in Hk; lia].
  destruct (getitem_paper sampled dataset index k Hus Hinit Hk) as (_ & _ & _ & Hitem).
  exists k, (filter (fun r => (paper_id r =? k)%Z) sampled).
  split; [exact Hitem|]. split; [|split].
  - apply group_nonempty. apply nth_error_In with index. exact Hk.
  - intros r Hr. apply filter_In in Hr. destruct Hr as (Hr & Hp). split.
    + apply (Permutation_in r (Permutation_sym Hperm)). apply in_or_app. left. exact Hr.
    + apply Z.eqb_eq. exact Hp.
  - unfold paper_rows.
    rewrite (length_filter_Permutation (fun r => (paper_id r =? k)%Z) _ _ Hperm).
    rewrite filter_app, length_app. lia.
Qed.

End Subsample.

Lemma sampler_draws_without_replacement : draws_without_replacement Cases.sampler.
Proof.
  intros T L table sampled n. cbn [sample Cases.sampler].
  destruct (Nat.leb_spec n (length table)) as [Hle|_]; [|discriminate].
  intros H. injection H as <-. split.
  - rewrite length_firstn, length_rev. lia.
  - exists (skipn n (rev table)). rewrite firstn_skipn. apply Permutation_rev.
Qed.

(** On [Cases.module3]: three of the five records of [Toy.papers] are kept,
    the last three in reverse order, which are two sentences of paper 7 and
    one of paper 3. *)
Lemma setup_subsample_keeps_papers_apart_witness :
  exists ds,
    @setup Cases.sampler String.string bool Cases.module3 = Some ds
    /\ train_len ds = 3
    /\ forall index,
         index < __len__ (train_dataset ds) ->
         exists k rows_,
           @__getitem__ Toy.tokenizer (train_dataset ds) index
           = Some (@paper_example Toy.tokenizer rows_)
           /\ rows_ <> []
           /\ (forall r, In r rows_ -> In r Toy.papers /\ paper_id r = k)
           /\ length rows_ <= length (paper_rows Toy.papers k).
Proof.
  destruct (@setup Cases.sampler String.string bool Cases.module3) as [ds|] eqn:E;
    [|vm_compute in E; discriminate E].
  assert (Hu : index_is_unique Toy.papers).
  { unfold index_is_unique. simpl.
    repeat (constructor;
            [simpl; intros H; repeat (destruct H as [H|H]; [discriminate H|]); exact H|]).
    constructor. }
  destruct (@setup_subsample_keeps_papers_apart Toy.tokenizer Cases.sampler
              Cases.module3 ds 3 sampler_draws_without_replacement
              eq_refl eq_refl Hu E) as (Hn & _ & _ & Hitems).
  exists ds. split; [reflexivity|]. split; [exact Hn | exact Hitems].
Defined.

(** ** Iterating a dataloader *)

Lemma Forall2_nth_error_right {A B} (R : A -> B -> Prop) (l : list A) (l' : list B)
      (j : nat) (b : B) :
  Forall2 R l l' -> nth_error l' j = Some b ->
  exists a, nth_error l j = Some a /\ R a b.
Proof.
  intros F. revert j. induction F as [|a b0 l l' Hab F IH]; intros j Hj.
  - destruct j; discriminate.
  - destruct j as [|j]; cbn [nth_error] in *.
    + injection Hj as <-. exists a. split; [reflexivity | exact Hab].
    + apply IH. exact Hj.
Qed.

Lemma nth_error_batch_indices (n bs j : nat) (indices : list nat) :
  0 < bs ->
  nth_error (batch_indices n bs) j = Some indices ->
  indices = seq (j * bs) (Nat.min bs (n - j * bs))
  /\ 0 < Nat.min bs (n - j * bs)
  /\ forall i, In i indices -> i < n.
Proof.
  intros Hbs H. unfold batch_indices in H. rewrite nth_error_map in H.
  destruct (nth_error (seq 0 ((n + bs - 1) / bs)) j) as [b|] eqn:Eb; [|discriminate].
  cbn [option_map] in H. injection H as <-.
  assert (Hj : j < length (seq 0 ((n + bs - 1) / bs)))
    by (apply nth_error_Some; rewrite Eb; discriminate).
  rewrite length_seq in Hj.
  assert (Ej : b = j).
  { pose proof (nth_error_nth _ _ 0 Eb) as Hn. rewrite seq_nth in Hn by exact Hj.
    simpl in Hn. symmetry. exact Hn. }
  subst b.
  pose proof (Nat.div_mod_eq (n + bs - 1) bs) as E.
  pose proof (Nat.mod_upper_bound (n + bs - 1) bs ltac:(lia)) as B.
  assert (Hlt : j * bs < n) by nia.
  split; [reflexivity|]. split; [lia|].
  intros i Hi. apply in_seq in Hi. lia.
Qed.

Section Dataloader.
Context {tok : Tokenizer}.

Lemma getitem_mask_aligned (dataset : SuMM_with_tokenizer String.string bool)
      (index : nat) (item : Example.t) :
  tokenizer_aligned tok ->
  __getitem__ dataset index = Some item ->
  length (Example.attention_mask item) = length (Example.input_ids item)
  /\ len (Example.targets item) = length (Example.input_ids item).
Proof.
  intros Hal H. destruct (getitem_cases dataset index item H) as [(rows_ & ->)|(datum & ->)].
  - split; [|apply paper_example_aligned].
    cbn [paper_example Example.attention_mask Example.input_ids].
    rewrite !length_concat_sum, !map_map. f_equal. apply map_ext. intros r. apply Hal.
  - cbn [Example.attention_mask Example.input_ids Example.targets len].
    split; [apply Hal | apply repeat_length].
Qed.

Lemma collate_fitting_shape (batch : list Example.t) (out : Batch.t) :
  batch <> [] ->
  Forall (fun item => length (Example.attention_mask item) <= longest batch
                      /\ len (Example.targets item) <= longest batch) batch ->
  collate batch = Some out ->
  batch_of_shape out (length batch) (longest batch).
Proof.
  intros Hne Hfit H. rewrite (collate_fitting batch Hne Hfit) in H. injection H as <-.
  unfold batch_of_shape, batch_size.
  cbn [Batch.input_ids Batch.attention_mask Batch.token_type_ids Batch.targets rows cols].
  rewrite !length_map. repeat split.
  apply wf_intro. cbn [rows cols]. intros r Hr. apply in_map_iff in Hr.
  destruct Hr as (item & <- & Hin). rewrite Forall_forall in Hfit.
  destruct (Hfit item Hin) as (_ & Ht). unfold padded_floats.
  rewrite length_app, repeat_length, length_as_float32. lia.
Qed.

Lemma dataloader_fetches (table : list (Row String.string bool)) (paper_level : bool)
      (dataset : SuMM_with_tokenizer String.string bool) (batch_size_ : nat) :
  tokenizer_aligned tok ->
  __init__ table paper_level = Some dataset ->
  0 < batch_size_ ->
  exists batches,
    DataLoader dataset batch_size_ = Some batches
    /\ Forall2 (fetched dataset) (batch_indices (__len__ dataset) batch_size_) batches.
Proof.
  intros Hal Hinit Hbs. unfold DataLoader.
  destruct (Nat.eqb_spec batch_size_ 0) as [E|_]; [lia|].
  set (fetch := fun indices => items <- map_opt (__getitem__ dataset) indices ;;
                               collate items).
  destruct (map_opt_all fetch (fetched dataset)
              (batch_indices (__len__ dataset) batch_size_))
    as (batches & Eb & F).
  { intros indices Hin. destruct (In_nth_error _ _ Hin) as (j & Hj).
    destruct (nth_error_batch_indices _ _ _ _ Hbs Hj) as (-> & Hpos & Hlt).
    destruct (map_opt_all (__getitem__ dataset) (fun _ _ => True)
                (seq (j * batch_size_)
                     (Nat.min batch_size_ (__len__ dataset - j * batch_size_))))
      as (items & Ei & Fi).
    { intros i Hi. destruct (getitem_below_len table paper_level dataset i Hinit (Hlt i Hi))
        as (item & Eitem).
      exists item. split; [exact Eitem | exact I]. }
    assert (Hlen : length items = Nat.min batch_size_ (__len__ dataset - j * batch_size_))
      by (rewrite <- (Forall2_length Fi), length_seq; reflexivity).
    assert (Hne : items <> []) by (intros ->; simpl in Hlen; lia).
    assert (Hfit : Forall (fun item =>
                             length (Example.attention_mask item) <= longest items
                             /\ len (Example.targets item) <= longest items) items).
    { apply Forall_forall. intros item Hitem.
      destruct (Forall2_In_right _ _ _ item Fi Hitem) as (i & _ & Eitem & _).
      destruct (getitem_mask_aligned dataset i item Hal Eitem) as (Hm & Ht).
      rewrite Hm, Ht. split;
        apply (length_le_list_max (fun item => length (Example.input_ids item)));
        exact Hitem. }
    pose proof (collate_fitting items Hne Hfit) as Ec.
    eexists. split.
    - unfold fetch. rewrite Ei. cbn [bind]. exact Ec.
    - exists items. split; [exact Ei|]. split; [exact Ec|].
      split; [rewrite Hlen, length_seq; reflexivity|].
      apply (collate_fitting_shape items _ Hne Hfit Ec). }
  exists batches. split; [exact Eb|].
  eapply Forall2_impl; [|exact F]. intros indices batch (_ & H). exact H.
Qed.

(** X15.  With a tokenizer whose masks are as long as its token
    identifiers, a positive batch size and a dataset built by [__init__],
    in either mode, iterating the dataloader does not raise.  It yields
    [ceil(len / batch_size)] batches, none for an empty dataset; batch
    number [j] collates the items [j*batch_size, ...] in index order, holds
    between one and [batch_size] of them, and is padded to the longest of
    its own items only. *)
Theorem dataloader_batches (table : list (Row String.string bool)) (paper_level : bool)
        (dataset : SuMM_with_tokenizer String.string bool) (batch_size_ : nat) :
  tokenizer_aligned tok ->
  __init__ table paper_level = Some dataset ->
  0 < batch_size_ ->
  exists batches,
    DataLoader dataset batch_size_ = Some batches
    /\ length batches = (__len__ dataset + batch_size_ - 1) / batch_size_
    /\ forall j batch,
         nth_error batches j = Some batch ->
         exists items,
           map_opt (__getitem__ dataset)
                   (seq (j * batch_size_)
                        (Nat.min batch_size_ (__len__ dataset - j * batch_size_)))
           = Some items
           /\ collate items = Some batch
           /\ 0 < length items <= batch_size_
           /\ batch_of_shape batch (length items) (longest items).
Proof.
  intros Hal Hinit Hbs.
  destruct (dataloader_fetches table paper_level dataset batch_size_ Hal Hinit Hbs)
    as (batches & Eb & F).
  exists batches. split; [exact Eb|]. split.
  - rewrite <- (Forall2_length F). unfold batch_indices.
    rewrite length_map, length_seq. reflexivity.
  - intros j batch Hj.
    destruct (Forall2_nth_error_right _ _ _ j batch F Hj) as (indices & Hi & Hgood).
    destruct (nth_error_batch_indices _ _ _ _ Hbs Hi) as (-> & Hpos & _).
    destruct Hgood as (items & Ei & Ec & Hlen & Hshape).
    exists items. split; [exact Ei|]. split; [exact Ec|]. split; [|exact Hshape].
    rewrite Hlen, length_seq. lia.
Qed.

End Dataloader.

Lemma toy_tokenizer_aligned : tokenizer_aligned Toy.tokenizer.
Proof.
  intros s b. cbn [tokenize Toy.tokenizer Encoding.attention_mask Encoding.input_ids].
  apply repeat_length.
Qed.

(** On [Toy.papers] in sentence mode with batches of two: three batches,
    of two, two and one items. *)
Lemma dataloader_batches_witness :
  exists batches,
    @DataLoader Toy.tokenizer (MkDataset Toy.papers false [[12; 13]; [40; 41; 45]]%Z) 2
    = Some batches
    /\ length batches = 3
    /\ map (fun b => (batch_size (Batch.input_ids b), cols (Batch.input_ids b))) batches
       = [(2, 7); (2, 9); (1, 5)].
Proof.
  destruct (@dataloader_batches Toy.tokenizer Toy.papers false
              (MkDataset Toy.papers false [[12; 13]; [40; 41; 45]]%Z) 2
              toy_tokenizer_aligned eq_refl ltac:(lia))
    as (batches & E & Hlen & _).
  exists batches. split; [exact E|]. split; [rewrite Hlen; reflexivity|].
  vm_compute in E. injection E as <-. reflexivity.
Defined.

(** ** Scores of the tokens of a text *)

Lemma as_tensor_single (r : list Z) : as_tensor [r] = Some (Tensor2 [r] (length r)).
Proof. unfold as_tensor. cbn [forallb]. rewrite Nat.eqb_refl. reflexivity. Qed.

Lemma as_tensor_ragged (rows_ : list (list Z)) (r1 r2 : list Z) :
  In r1 rows_ -> In r2 rows_ -> length r1 <> length r2 -> as_tensor rows_ = None.
Proof.
  intros H1 H2 Hne. unfold as_tensor. destruct rows_ as [|r0 rest]; [reflexivity|].
  destruct (forallb (fun r' => length r' =? length r0) (r0 :: rest)) eqn:E; [|reflexivity].
  rewrite forallb_forall in E.
  pose proof (E r1 H1) as E1. pose proof (E r2 H2) as E2.
  apply Nat.eqb_eq in E1, E2. congruence.
Qed.

Section TokenScoresProofs.
Context {enc : Encoder} {head : Head enc} {tok : Tokenizer}.

(** X16.  [get_token_scores] raises on an empty list of texts and on a list
    holding two texts with different numbers of tokens (no padding is asked
    of the tokenizer).  On a single text it returns the token identifiers,
    special tokens included, as a one-row tensor, and one vector of
    [n_classes] scores per position: all positions with chunking, the first
    512 at most without (for a tokenizer whose three fields have one length
    and an encoder that keeps shapes). *)
Theorem get_token_scores_single_text (enable_chunk : bool) :
  get_token_scores enable_chunk [] = None
  /\ (forall text s1 s2,
         In s1 text -> In s2 text ->
         length (Encoding.input_ids (tokenize s1 true))
         <> length (Encoding.input_ids (tokenize s2 true)) ->
         get_token_scores enable_chunk text = None)
  /\ (forall s,
         tokenizer_rectangular tok ->
         let ids := Encoding.input_ids (tokenize s true) in
         encoder_contract enable_chunk
           (Tensor2 [ids] (length ids))
           (Tensor2 [Encoding.attention_mask (tokenize s true)] (length ids))
           (Tensor2 [Encoding.token_type_ids (tokenize s true)] (length ids)) ->
         exists scores,
           get_token_scores enable_chunk [s] = Some (Tensor2 [ids] (length ids), scores)
           /\ shape scores = [1; embedded_length enable_chunk (length ids); n_classes]).
Proof.
  split; [reflexivity|]. split.
  - intros text s1 s2 H1 H2 Hne. unfold get_token_scores, tokenize_batch. cbv zeta.
    rewrite (as_tensor_ragged _ (Encoding.input_ids (tokenize s1 true))
               (Encoding.input_ids (tokenize s2 true))).
    + reflexivity.
    + rewrite map_map. apply (in_map (fun s => Encoding.input_ids (tokenize s true))).
      exact H1.
    + rewrite map_map. apply (in_map (fun s => Encoding.input_ids (tokenize s true))).
      exact H2.
    + exact Hne.
  - intros s Hrect ids Henc. destruct (Hrect s true) as (Hm & Ht). fold ids in Hm, Ht.
    unfold get_token_scores, tokenize_batch. cbv zeta. cbn [map].
    rewrite !as_tensor_single. cbn [bind fst snd]. fold ids. rewrite Hm, Ht in *.
    destruct (get_embedding_shape enable_chunk
                (Tensor2 [ids] (length ids))
                (Tensor2 [Encoding.attention_mask (tokenize s true)] (length ids))
                (Tensor2 [Encoding.token_type_ids (tokenize s true)] (length ids))
                (length ids) eq_refl eq_refl eq_refl Henc) as (e & E & _ & Hb & Hc).
    rewrite (forward_of_embedding enable_chunk _ _ _ false e E). cbn [bind].
    eexists. split; [reflexivity|]. cbn [shape]. rewrite Hb, Hc. reflexivity.
Qed.

End TokenScoresProofs.

Lemma toy_tokenizer_rectangular : tokenizer_rectangular Toy.tokenizer.
Proof.
  intros s b.
  cbn [tokenize Toy.tokenizer Encoding.attention_mask Encoding.input_ids
       Encoding.token_type_ids].
  split; apply repeat_length.
Qed.

(** On a text of 600 characters, 602 tokens with the special ones: 602
    score vectors with chunking, 512 without; and a list of two texts of
    different lengths raises. *)
Lemma get_token_scores_single_text_witness :
  (exists ids scores,
      @get_token_scores Toy.encoder Toy.head Toy.tokenizer true [Cases.long_text]
      = Some (ids, scores)
      /\ cols ids = 602 /\ shape scores = [1; 602; 2])
  /\ (exists ids scores,
         @get_token_scores Toy.encoder Toy.head Toy.tokenizer false [Cases.long_text]
         = Some (ids, scores)
         /\ cols ids = 602 /\ shape scores = [1; 512; 2])
  /\ @get_token_scores Toy.encoder Toy.head Toy.tokenizer true
       (map (@text String.string bool) Toy.paper3) = None.
Proof.
  split; [|split].
  - destruct (@get_token_scores_single_text Toy.encoder Toy.head Toy.tokenizer true)
      as (_ & _ & H).
    destruct (H Cases.long_text toy_tokenizer_rectangular) as (scores & E & Hs).
    + vm_compute. reflexivity.
    + eexists _, scores. split; [exact E|]. split; [vm_compute; reflexivity | exact Hs].
  - destruct (@get_token_scores_single_text Toy.encoder Toy.head Toy.tokenizer false)
      as (_ & _ & H).
    destruct (H Cases.long_text toy_tokenizer_rectangular) as (scores & E & Hs).
    + vm_compute. reflexivity.
    + eexists _, scores. split; [exact E|]. split; [vm_compute; reflexivity | exact Hs].
  - destruct (@get_token_scores_single_text Toy.encoder Toy.head Toy.tokenizer true)
      as (_ & H & _).
    apply (H _ (text (nth 0 Toy.paper3 (MkRow 0 0 String.EmptyString false)))
             (text (nth 1 Toy.paper3 (MkRow 0 0 String.EmptyString false)))).
    + left. reflexivity.
    + right. left. reflexivity.
    + vm_compute. discriminate.
Defined.

(** ** Pooling: which layers count *)

Section Pooling.
Context {enc : Encoder}.

Lemma forallb_same_shape_head {A} (x : tensor2 A) (h0 : tensor2 emb)
      (hs : list (tensor2 emb)) :
  same_shape x h0 = true -> forallb (same_shape x) hs = true ->
  forallb (same_shape h0) hs = true.
Proof.
  intros H0 H. rewrite forallb_forall in *. intros h Hh.
  apply same_shape_spec in H0. pose proof (H h Hh) as Hx. apply same_shape_spec in Hx.
  apply same_shape_spec. destruct H0, Hx. split; congruence.
Qed.

(** X17.  Of the layers the encoder returns, only the last five reach the
    embedding: pooling a tuple of at least five layers of one shape gives
    what pooling its last five layers gives.  Pooling raises on an empty
    tuple and on a tuple whose layers differ in shape. *)
Theorem mean_last5_uses_last_five {A} (x : tensor2 A) (hidden_states : list (tensor2 emb)) :
  mean_last5 [] = None
  /\ (forall h, In h hidden_states ->
                same_shape (hd h hidden_states) h = false ->
                mean_last5 hidden_states = None)
  /\ (layers_like x hidden_states = true ->
      5 <= length hidden_states ->
      mean_last5 hidden_states
      = mean_last5 (skipn (length hidden_states - 5) hidden_states)).
Proof.
  split; [reflexivity|]. split.
  - intros h Hin Hdiff. destruct hidden_states as [|h0 rest]; [contradiction|].
    cbn [hd] in Hdiff. unfold mean_last5.
    destruct (forallb (same_shape h0) (h0 :: rest)) eqn:E; [|reflexivity].
    rewrite forallb_forall in E. rewrite (E h Hin) in Hdiff. discriminate.
  - intros Hlike Hlen.
    destruct hidden_states as [|h0 rest] eqn:Eh; [simpl in Hlen; lia|].
    rewrite <- Eh in *. cbn [layers_like] in Hlike.
    assert (Hall : forallb (same_shape x) hidden_states = true)
      by (rewrite Eh in *; exact Hlike).
    set (last5 := skipn (length hidden_states - 5) hidden_states).
    assert (Hl5 : length last5 = 5) by (unfold last5; rewrite length_skipn; lia).
    destruct last5 as [|l0 lrest] eqn:El; [discriminate|].
    assert (Hsub : forall h, In h (l0 :: lrest) -> In h hidden_states).
    { intros h Hh. rewrite <- El in Hh. unfold last5 in Hh.
      rewrite <- (firstn_skipn (length hidden_states - 5) hidden_states).
      apply in_or_app. right. exact Hh. }
    assert (Hx : forall h, In h hidden_states -> same_shape x h = true)
      by (rewrite forallb_forall in Hall; exact Hall).
    assert (E0 : same_shape x h0 = true) by (apply Hx; rewrite Eh; left; reflexivity).
    assert (El0 : same_shape x l0 = true) by (apply Hx, Hsub; left; reflexivity).
    unfold mean_last5 at 2.
    rewrite (forallb_same_shape_head x l0 (l0 :: lrest) El0)
      by (apply forallb_forall; intros h Hh; apply Hx, Hsub; exact Hh).
    rewrite Hl5. cbn [Nat.sub skipn].
    unfold mean_last5. rewrite Eh.
    rewrite (forallb_same_shape_head x h0 (h0 :: rest) E0) by (rewrite <- Eh; exact Hall).
    rewrite <- Eh. fold last5. rewrite El.
    apply same_shape_spec in E0, El0. destruct E0 as (B0 & C0). destruct El0 as (B1 & C1).
    rewrite <- B0, <- C0, <- B1, <- C1. reflexivity.
Qed.

End Pooling.

(** On six one-value layers of [Toy]: the first layer does not count. *)
Lemma mean_last5_uses_last_five_witness :
  @mean_last5 Toy.encoder (map (fun j => Tensor2 [[j]] 1) [100; 1; 2; 3; 4; 5]%Z)
  = @mean_last5 Toy.encoder (map (fun j => Tensor2 [[j]] 1) [1; 2; 3; 4; 5]%Z).
Proof.
  destruct (@mean_last5_uses_last_five Toy.encoder Z (Tensor2 [[0%Z]] 1)
              (map (fun j => Tensor2 [[j]] 1) [100; 1; 2; 3; 4; 5]%Z))
    as (_ & _ & H).
  apply H; [reflexivity | simpl; lia].
Defined.

(** ** From the table to the training step *)


Section EndToEnd.
Context {enc : Encoder} {head : Head enc} {tok : Tokenizer}.


End EndToEnd.


(** ** Items and records *)

Lemma length_nodup_le (l : list Z) : length (nodup Z.eq_dec l) <= length l.
Proof.
  induction l as [|a l IH]; [reflexivity|]. cbn [nodup].
  destruct (in_dec Z.eq_dec a l); simpl; lia.
Qed.

Lemma length_nodup_eq_iff (l : list Z) :
  length (nodup Z.eq_dec l) = length l <-> NoDup l.
Proof.
  induction l as [|a l IH]; [split; [constructor | reflexivity]|].
  cbn [nodup]. pose proof (length_nodup_le l) as Hle.
  destruct (in_dec Z.eq_dec a l) as [Hin|Hnin].
  - split; [simpl; lia|]. intros H. inversion H; subst. contradiction.
  - cbn [length]. split.
    + intros H. constructor; [exact Hnin|]. apply IH. lia.
    + intros H. inversion H; subst. f_equal. apply IH. assumption.
Qed.

Lemma init_len {T L} (table : list (Row T L)) (paper_level : bool)
      (dataset : SuMM_with_tokenizer T L) :
  __init__ table paper_level = Some dataset ->
  data dataset = table
  /\ __len__ dataset
     = if paper_level then length (nodup Z.eq_dec (map (@paper_id T L) table))
       else length table.
Proof.
  intros H. injection H as <-. split; [reflexivity|].
  unfold __len__, value_counts. cbn [process_paper_level data].
  destruct paper_level; [apply length_map | reflexivity].
Qed.

Section LenAccessors.
Context {smp : Sampler}.

Lemma setup_inv {T L} (self : SummDataModule.t T L) (ds : Datasets T L) :
  setup self = Some ds ->
  __init__ (data (train_dataset ds)) (SummDataModule.process_paper_level self)
  = Some (train_dataset ds)
  /\ __init__ (SummDataModule.valData self) (SummDataModule.process_paper_level self)
     = Some (val_dataset ds)
  /\ __init__ (SummDataModule.testData self) (SummDataModule.process_paper_level self)
     = Some (test_dataset ds).
Proof.
  unfold setup. intros H.
  destruct (SummDataModule.train_size self) as [n|].
  - destruct (sample (SummDataModule.trainData self) n) as [sampled|]; [|discriminate].
    cbn [bind] in H. injection H as <-. repeat split.
  - cbn [bind] in H. injection H as <-. repeat split.
Qed.

(** X19.  After [setup], [train_len], [val_len] and [test_len] count the
    records of each dataset, while [__len__] counts its items: the number of
    items never exceeds the number of records; the two agree in sentence
    mode, and in paper-level mode they agree exactly when no two records of
    the dataset share a [paper_id]. *)
Theorem len_accessors_count_records {T L} (self : SummDataModule.t T L)
        (ds : Datasets T L) :
  setup self = Some ds ->
  (__len__ (train_dataset ds) <= train_len ds
   /\ __len__ (val_dataset ds) <= val_len ds
   /\ __len__ (test_dataset ds) <= test_len ds)
  /\ (SummDataModule.process_paper_level self = false ->
      __len__ (train_dataset ds) = train_len ds
      /\ __len__ (val_dataset ds) = val_len ds
      /\ __len__ (test_dataset ds) = test_len ds)
  /\ (SummDataModule.process_paper_level self = true ->
      (__len__ (train_dataset ds) = train_len ds
       <-> NoDup (map (@paper_id T L) (data (train_dataset ds))))
      /\ (__len__ (val_dataset ds) = val_len ds
          <-> NoDup (map (@paper_id T L) (SummDataModule.valData self)))
      /\ (__len__ (test_dataset ds) = test_len ds
          <-> NoDup (map (@paper_id T L) (SummDataModule.testData self)))).
Proof.
  intros Hsetup. destruct (setup_inv self ds Hsetup) as (Htr & Hva & Hte).
  destruct (init_len _ _ _ Htr) as (_ & Ltr).
  destruct (init_len _ _ _ Hva) as (Dva & Lva).
  destruct (init_len _ _ _ Hte) as (Dte & Lte).
  unfold train_len, val_len, test_len. rewrite Dva, Dte, Ltr, Lva, Lte.
  destruct (SummDataModule.process_paper_level self).
  - split; [|split; [discriminate|]].
    + repeat split; rewrite <- (length_map (@paper_id T L)); apply length_nodup_le.
    + intros _. repeat split; intros H;
        try (apply length_nodup_eq_iff; rewrite length_map; exact H);
        try (rewrite <- (length_map (@paper_id T L)); apply length_nodup_eq_iff; exact H).
  - split; [repeat split; apply Nat.le_refl|]. split; [intros _; repeat split | discriminate].
Qed.

End LenAccessors.

(** On [Cases.module3], in paper-level mode: three training records in two
    items; two validation records of one paper in one item. *)
Lemma len_accessors_count_records_witness :
  exists ds,
    @setup Cases.sampler String.string bool Cases.module3 = Some ds
    /\ __len__ (train_dataset ds) <= train_len ds
    /\ train_len ds = 3 /\ __len__ (train_dataset ds) = 2
    /\ val_len ds = 2 /\ __len__ (val_dataset ds) = 1.
Proof.
  destruct (@setup Cases.sampler String.string bool Cases.module3) as [ds|] eqn:E;
    [|vm_compute in E; discriminate E].
  destruct (@len_accessors_count_records Cases.sampler String.string bool
              Cases.module3 ds E) as ((Hle & _) & _).
  exists ds. split; [reflexivity|]. split; [exact Hle|].
  vm_compute in E. injection E as <-. repeat split.
Defined.
